(** * TEM autosize analyzer: the image-to-measurement pipeline and the session

    A shallow embedding of [core/analyzer.py] and [core/session.py], with
    [core/io_utils.py] and the deciding parts of [gui/main_window.py].

    Number model.  Python floats and numpy float arrays are embedded as real
    numbers with exact arithmetic; comparisons are the boolean tests below.
    Python ints are [Z] (pixel areas, bounding boxes, settings) and lengths
    are [nat].  The scikit-image / scipy primitives the analyzer calls are
    not part of the repository: they are the fields of the class [Skimage],
    and every statement about [analyze_image] holds for any implementation
    of that class. *)

From Stdlib Require Import String Ascii.
From Stdlib Require Import Reals Lra Lia ZArith List Bool.
From Stdlib Require Import Permutation Sorted.
From Stdlib Require DecimalString.
Import ListNotations.
Open Scope R_scope.

(** ** Comparisons and conversions of the number model *)

Definition Rleb (x y : R) : bool := if Rle_dec x y then true else false.
Definition Rgeb (x y : R) : bool := Rleb y x.
Definition Rgtb (x y : R) : bool := if Rgt_dec x y then true else false.

(** [int(x)] on a float: truncation towards zero. *)
Definition py_int (x : R) : Z :=
  if Rlt_dec x 0 then (- Int_part (- x))%Z else Int_part x.

(** ** Python strings and sequences *)

(** [str.lower] on the ASCII letters; other characters are kept.  This is
    [str.lower] on ASCII text only; on other text the analyzer uses
    [str_lower] below. *)
Definition ascii_lower (c : ascii) : ascii :=
  let n := nat_of_ascii c in
  if ((65 <=? n) && (n <=? 90))%nat then ascii_of_nat (n + 32) else c.

Fixpoint lower (s : string) : string :=
  match s with
  | EmptyString => EmptyString
  | String c s' => String (ascii_lower c) (lower s')
  end.

(** The strings on which [lower] is all of [str.lower]: those made of
    characters below 128. *)
Fixpoint is_ascii (s : string) : bool :=
  match s with
  | EmptyString => true
  | String c s' => (nat_of_ascii c <? 128)%nat && is_ascii s'
  end.

(** Truth value of a string: the empty string is falsy. *)
Definition truthy (s : string) : bool :=
  match s with EmptyString => false | _ => true end.

(** [a[start:]] along the first axis, with Python's handling of negative and
    out-of-range bounds. *)
Definition slice_from {A : Type} (start : Z) (a : list A) : list A :=
  let n := Z.of_nat (length a) in
  let lo := if (start <? 0)%Z then Z.max 0 (n + start) else Z.min start n in
  skipn (Z.to_nat lo) a.

(** [a[:stop]] along the first axis. *)
Definition slice_to {A : Type} (stop : Z) (a : list A) : list A :=
  let n := Z.of_nat (length a) in
  let hi := if (stop <? 0)%Z then Z.max 0 (n + stop) else Z.min stop n in
  firstn (Z.to_nat hi) a.

(** ** numpy helpers used by the analyzer *)

(** Elementwise [a & b] on boolean arrays of one shape. *)
Definition np_and (a b : list bool) : list bool :=
  map (fun ab => andb (fst ab) (snd ab)) (combine a b).

(** [np.logical_not] on a 2-D boolean array. *)
Definition logical_not (bw : list (list bool)) : list (list bool) :=
  map (map negb) bw.

(** Boolean mask indexing [a[mask]]. *)
Fixpoint bool_index {A : Type} (a : list A) (mask : list bool) : list A :=
  match a, mask with
  | x :: a', b :: mask' =>
      if b then x :: bool_index a' mask' else bool_index a' mask'
  | _, _ => []
  end.

Definition Rsum (xs : list R) : R := fold_right Rplus 0 xs.

(** [np.mean]: the sum over the number of elements. *)
Definition np_mean (xs : list R) : R := Rsum xs / INR (length xs).

(** [np.var(xs, ddof)]: mean of squared deviations with divisor [N - ddof]. *)
Definition np_var (ddof : nat) (xs : list R) : R :=
  let m := np_mean xs in
  Rsum (map (fun x => Rsqr (Rabs (x - m))) xs) / INR (length xs - ddof).

(** [np.std(xs, ddof)]; the analyzer calls it with the default [ddof = 0]. *)
Definition np_std (ddof : nat) (xs : list R) : R := sqrt (np_var ddof xs).

(** ** Exceptions *)

Inductive exn : Type :=
| ValueError (msg : string)
| IndexError (msg : string)
| OSError (msg : string).

Inductive outcome (A : Type) : Type :=
| Returns (a : A)
| Raises (e : exn).
Arguments Returns {A} a.
Arguments Raises {A} e.

Definition bind {A B : Type} (c : outcome A) (k : A -> outcome B) : outcome B :=
  match c with
  | Returns a => k a
  | Raises e => Raises e
  end.

Notation "x <- c ;; k" := (bind c (fun x => k))
  (at level 61, c at next level, right associativity).

(** ** Data model of [core/analyzer.py] *)

Record Thresholds : Type := {
  min_nm : R;
  max_nm : R;
  ecc_max : R;
  sol_min : R
}.

Definition default_Thresholds : Thresholds :=
  {| min_nm := 3.5; max_nm := 9.0; ecc_max := 0.7; sol_min := 0.5 |}.

Record AnalyzerSettings : Type := {
  sb_color : string;
  sb_region_ratio : R;
  white_thr : Z;
  black_thr : Z;
  sb_min_area : Z;
  crop_bottom_px : Z;
  gamma : R;
  gauss_sigma : R;
  adapthist_clip : R;
  adapthist_tiles : Z * Z
}.

Definition default_AnalyzerSettings : AnalyzerSettings :=
  {| sb_color := "white"; sb_region_ratio := 0.85; white_thr := 245;
     black_thr := 10; sb_min_area := 200; crop_bottom_px := 150;
     gamma := 0.7; gauss_sigma := 1.0; adapthist_clip := 0.02;
     adapthist_tiles := (4, 4)%Z |}.

Record ImageResult : Type := {
  count : nat;
  mean_nm : option R;
  std_nm : option R;
  values_nm : list R;
  circles : list (R * R * R)
}.

(** The array [io.imread] returns: two axes (grey levels) or three (channels). *)
Inductive ndarray : Type :=
| Array2 (rows : list (list Z))
| Array3 (rows : list (list (list Z))).

Definition gray_image : Type := list (list R).
Definition bin_image : Type := list (list bool).
Definition label_image : Type := list (list Z).

(** One entry of [measure.regionprops]: the properties the analyzer reads.
    [bbox] is [(min_row, min_col, max_row, max_col)]. *)
Record RegionProps : Type := {
  area : Z;
  bbox : Z * Z * Z * Z;
  equivalent_diameter : R;
  eccentricity : R;
  solidity : R;
  centroid : R * R
}.

(** What the analyzer takes from outside the repository.  First the
    image-processing primitives imported from scikit-image and scipy;
    [io_imread] may raise, and [rgb2gray_raises] tells whether
    [color.rgb2gray] raises on an array (and what) instead of returning
    [rgb2gray] of it.  Then two operations of Python itself that the model
    of text and numbers does not compute: [str_lower] is [str.lower] on
    arbitrary (UTF-8 encoded) text, which agrees with [lower] on ASCII
    text, and [float_mul] is the rounded product of two floats. *)
Class Skimage : Type := {
  io_imread : string -> outcome ndarray;
  rgb2gray_raises : list (list (list Z)) -> option exn;
  str_lower : string -> string;
  str_lower_ascii : forall s, is_ascii s = true -> str_lower s = lower s;
  float_mul : R -> R -> R;
  rgb2gray : list (list (list Z)) -> gray_image;
  remove_small_objects : bin_image -> Z -> bin_image;
  label : bin_image -> label_image;
  regionprops : label_image -> list RegionProps;
  equalize_adapthist : gray_image -> R -> Z -> gray_image;
  adjust_gamma : gray_image -> R -> gray_image;
  gaussian : gray_image -> R -> gray_image;
  threshold_otsu : gray_image -> R;
  binary_fill_holes : bin_image -> bin_image
}.

(** [list.sort(key=lambda p: p.area, reverse=True)]: a stable sort by
    decreasing area; elements of equal area keep their order. *)
Fixpoint insert_by_area_desc (p : RegionProps) (l : list RegionProps)
  : list RegionProps :=
  match l with
  | [] => [p]
  | q :: l' =>
      if (area q <=? area p)%Z then p :: q :: l'
      else q :: insert_by_area_desc p l'
  end.

Definition sort_by_area_desc (l : list RegionProps) : list RegionProps :=
  fold_right insert_by_area_desc [] l.

(** ** [Analyzer.analyze_image], stage by stage *)

Definition empty_result : ImageResult :=
  {| count := 0; mean_nm := None; std_nm := None;
     values_nm := []; circles := [] |}.

(** Lines 131-137: the loop over [zip(props, valid)] that appends one circle
    per kept region. *)
Definition circles_step (acc : list (R * R * R)) (pk : RegionProps * bool)
  : list (R * R * R) :=
  let '(prop, keep) := pk in
  if negb keep then acc
  else
    let '(cy, cx) := centroid prop in
    let r := equivalent_diameter prop / 2 in
    acc ++ [(cx, cy, r)].

Definition collect_circles (props : list RegionProps) (valid : list bool)
  : list (R * R * R) :=
  fold_left circles_step (combine props valid) [].

(** Lines 120-122: the acceptance mask over all regions. *)
Definition valid_mask (props : list RegionProps) (nm_per_pix : R)
    (thresholds : Thresholds) : list bool :=
  let equiv_diam := map equivalent_diameter props in
  let ecc := map eccentricity props in
  let sol := map solidity props in
  let d_nm := map (fun d => d * nm_per_pix) equiv_diam in
  let mask_size :=
    np_and (map (fun d => Rgeb d (min_nm thresholds)) d_nm)
           (map (fun d => Rleb d (max_nm thresholds)) d_nm) in
  let mask_shape :=
    np_and (map (fun e => Rleb e (ecc_max thresholds)) ecc)
           (map (fun s => Rgeb s (sol_min thresholds)) sol) in
  np_and mask_size mask_shape.

(** Lines 111-145: filtering and aggregation of the labelled regions. *)
Definition measure (props : list RegionProps) (nm_per_pix : R)
    (thresholds : Thresholds) : ImageResult :=
  match props with
  | [] => empty_result
  | _ :: _ =>
      let equiv_diam := map equivalent_diameter props in
      let d_nm := map (fun d => d * nm_per_pix) equiv_diam in
      let valid := valid_mask props nm_per_pix thresholds in
      let values := bool_index d_nm valid in
      if (length values =? 0)%nat then empty_result
      else
        {| count := length values;
           mean_nm := Some (np_mean values);
           std_nm := Some (np_std 0 values);
           values_nm := values;
           circles := collect_circles props valid |}
  end.

Section Pipeline.

Context {lib : Skimage}.

(** [self.settings] *)
Variable settings : AnalyzerSettings.

(** Line 53: [(sb_color or settings.sb_color).lower()]. *)
Definition effective_color (color_arg : option string) : string :=
  str_lower match color_arg with
        | Some s => if truthy s then s else sb_color settings
        | None => sb_color settings
        end.

(** Lines 56-59: conversion to grey levels in [0, 1]. *)
Definition to_gray (image : ndarray) : gray_image :=
  match image with
  | Array3 rows => rgb2gray rows
  | Array2 rows => map (map (fun v => IZR v / 255)) rows
  end.

(** Lines 61-72: the bar-foreground mask of the bottom strip. *)
Definition scale_bar_mask (gray : gray_image) (color : string)
  : outcome bin_image :=
  let h_img := Z.of_nat (length gray) in
  let sb_start := py_int (float_mul (IZR h_img) (sb_region_ratio settings)) in
  let sb_region := slice_from sb_start gray in
  if String.eqb color "white" then
    let thr := IZR (white_thr settings) / 255 in
    Returns (map (map (fun v => Rgeb v thr)) sb_region)
  else if String.eqb color "black" then
    let thr := IZR (black_thr settings) / 255 in
    Returns (map (map (fun v => Rleb v thr)) sb_region)
  else Raises (ValueError "Scale bar color must be 'white' or 'black'.").

(** Lines 74-76: the connected components of the bar mask. *)
Definition scale_bar_components (sb_bw : bin_image) : list RegionProps :=
  let sb_bw := remove_small_objects sb_bw (sb_min_area settings) in
  let sb_labels := label sb_bw in
  regionprops sb_labels.

(** Lines 77-86: from the components to nanometres per pixel. *)
Definition calibrate (sb_props : list RegionProps) (known_nm : R)
  : outcome R :=
  match sb_props with
  | [] => Raises (ValueError "Scale bar not found. Adjust threshold or region.")
  | _ :: _ =>
      match sort_by_area_desc sb_props with
      | [] => Raises (IndexError "list index out of range")
      | bar :: _ =>
          let '(minr, minc, maxr, maxc) := bbox bar in
          let bar_width_px := (maxc - minc)%Z in
          if (bar_width_px <=? 0)%Z then
            Raises (ValueError "Invalid scale bar width.")
          else Returns (known_nm / IZR bar_width_px)
      end
  end.

(** Lines 88-99: crop of the bottom rows and contrast enhancement. *)
Definition enhance (gray : gray_image) : outcome gray_image :=
  let h_img := Z.of_nat (length gray) in
  let crop_bottom := crop_bottom_px settings in
  if (h_img - crop_bottom <=? 1)%Z then
    Raises (ValueError "Crop bottom too large for this image.")
  else
    let roi := slice_to (h_img - crop_bottom) gray in
    let roi_eq := equalize_adapthist roi (adapthist_clip settings) 256 in
    let roi_gamma := adjust_gamma roi_eq (gamma settings) in
    Returns (gaussian roi_gamma (gauss_sigma settings)).

(** Lines 101-103: Otsu binarisation followed by the inversion. *)
Definition binarize (roi_f : gray_image) : bin_image :=
  let level := threshold_otsu roi_f in
  let bw := map (map (fun v => Rgtb v level)) roi_f in
  logical_not bw.

(** Lines 101-109: from the enhanced region to the labelled regions. *)
Definition segment (roi_f : gray_image) : list RegionProps :=
  let bw := binarize roi_f in
  let bw := remove_small_objects bw 30 in
  let bw := binary_fill_holes bw in
  let labels := label bw in
  regionprops labels.

(** Lines 45-145.  [image] is the array read from [image_path]. *)
Definition analyze_image (image : ndarray) (known_nm : R)
    (thresholds : Thresholds) (color_arg : option string)
  : outcome ImageResult :=
  let color := effective_color color_arg in
  let gray := to_gray image in
  sb_bw <- scale_bar_mask gray color ;;
  nm_per_pix <- calibrate (scale_bar_components sb_bw) known_nm ;;
  roi_f <- enhance gray ;;
  Returns (measure (segment roi_f) nm_per_pix thresholds).

(** Lines 55-59: whether the conversion to grey levels raises. *)
Definition gray_conversion (image : ndarray) : outcome unit :=
  match image with
  | Array3 rows =>
      match rgb2gray_raises rows with
      | Some e => Raises e
      | None => Returns tt
      end
  | Array2 _ => Returns tt
  end.

(** Lines 45-145, from the path: the picture is read and converted first,
    and either step may raise before any check of the analyzer runs. *)
Definition analyze_image_path (image_path : string) (known_nm : R)
    (thresholds : Thresholds) (color_arg : option string)
  : outcome ImageResult :=
  image <- io_imread image_path ;;
  _ <- gray_conversion image ;;
  analyze_image image known_nm thresholds color_arg.

End Pipeline.

(** ** [core/session.py]

    A session is a mutable object holding a reference to a mutable list;
    [values] is passed by reference too and may be that same list.  Objects
    live in a store indexed by reference. *)

Definition ref : Type := nat.

Inductive object : Type :=
| ListObj (items : list R)
| SessionObj (thresholds : Thresholds) (total_nm : ref).

Definition store : Type := list object.

Definition lookup (h : store) (r : ref) : option object := nth_error h r.

Fixpoint update (h : store) (r : ref) (o : object) : store :=
  match h, r with
  | [], _ => []
  | _ :: h', O => o :: h'
  | x :: h', S r' => x :: update h' r' o
  end.

(** [target.extend(other)] on two list objects. *)
Definition list_extend (h : store) (target other : ref) : option store :=
  match lookup h target, lookup h other with
  | Some (ListObj a), Some (ListObj b) => Some (update h target (ListObj (a ++ b)))
  | _, _ => None
  end.

(** [len(target)] *)
Definition list_len (h : store) (target : ref) : option nat :=
  match lookup h target with
  | Some (ListObj a) => Some (length a)
  | _ => None
  end.

(** [SessionState.add_measurements]: [self.total_nm.extend(values)]. *)
Definition add_measurements (h : store) (self values : ref) : option store :=
  match lookup h self with
  | Some (SessionObj _ total_nm) => list_extend h total_nm values
  | _ => None
  end.

(** [SessionState.total_count]: [len(self.total_nm)]. *)
Definition total_count (h : store) (self : ref) : option nat :=
  match lookup h self with
  | Some (SessionObj _ total_nm) => list_len h total_nm
  | _ => None
  end.

(** ** Derived notions used in the statements *)

(** The circle drawn for one region: [(cx, cy, r)]. *)
Definition circle_of (prop : RegionProps) : R * R * R :=
  (snd (centroid prop), fst (centroid prop), equivalent_diameter prop / 2).

(** The acceptance test of one region, as lines 118-122 compute it
    elementwise. *)
Definition accepts (nm_per_pix : R) (t : Thresholds) (p : RegionProps) : bool :=
  (Rgeb (equivalent_diameter p * nm_per_pix) (min_nm t)
   && Rleb (equivalent_diameter p * nm_per_pix) (max_nm t))
  && (Rleb (eccentricity p) (ecc_max t) && Rgeb (solidity p) (sol_min t)).

(** The regions the filter keeps, in segmentation order. *)
Definition accepted (props : list RegionProps) (npp : R) (t : Thresholds)
  : list RegionProps :=
  filter (accepts npp t) props.

(** [t'] is at least as narrow as [t] in each of the four bounds. *)
Definition tighter (t t' : Thresholds) : Prop :=
  min_nm t <= min_nm t' /\ max_nm t' <= max_nm t /\
  ecc_max t' <= ecc_max t /\ sol_min t <= sol_min t'.

(** Both size bounds multiplied by [k]; the shape bounds kept. *)
Definition scale_size_bounds (k : R) (t : Thresholds) : Thresholds :=
  {| min_nm := k * min_nm t; max_nm := k * max_nm t;
     ecc_max := ecc_max t; sol_min := sol_min t |}.

(** An [ImageResult] with every length multiplied by [k]. *)
Definition scale_result (k : R) (r : ImageResult) : ImageResult :=
  {| count := count r;
     mean_nm := option_map (Rmult k) (mean_nm r);
     std_nm := option_map (Rmult k) (std_nm r);
     values_nm := map (Rmult k) (values_nm r);
     circles := circles r |}.

(** ** A test scene

    A four-row picture whose bottom row is the scale-bar strip, and the
    answers of the library on it: two bright components of equal area in the
    strip (the bar, 100 columns wide, comes first), three dark blobs in the
    measurement region.  The library instance passes images through and
    reports the components by the height of the label image it is given:
    one row for the strip, three for the measurement region.  It reads the
    test picture at every path, lower-cases ASCII text and multiplies
    exactly. *)

Definition bar_component : RegionProps :=
  {| area := 1000; bbox := (1, 10, 11, 110)%Z; equivalent_diameter := 35.7;
     eccentricity := 0.99; solidity := 1; centroid := (5.5, 59.5) |}.

Definition speck_component : RegionProps :=
  {| area := 1000; bbox := (15, 120, 40, 160)%Z; equivalent_diameter := 35.7;
     eccentricity := 0.78; solidity := 1; centroid := (27, 139.5) |}.

Definition disc_a : RegionProps :=
  {| area := 201; bbox := (12, 22, 28, 38)%Z; equivalent_diameter := 16;
     eccentricity := 0.2; solidity := 0.95; centroid := (20, 30) |}.

Definition disc_b : RegionProps :=
  {| area := 79; bbox := (40, 10, 60, 16)%Z; equivalent_diameter := 10;
     eccentricity := 0.9; solidity := 0.8; centroid := (50, 13) |}.

Definition disc_c : RegionProps :=
  {| area := 50; bbox := (58, 48, 66, 56)%Z; equivalent_diameter := 8;
     eccentricity := 0.3; solidity := 0.9; centroid := (62, 52) |}.

Definition test_discs : list RegionProps := [disc_a; disc_b; disc_c].

Definition test_picture : ndarray :=
  Array2 [[30; 200]; [200; 30]; [200; 200]; [255; 255]]%Z.

Definition test_settings : AnalyzerSettings :=
  {| sb_color := "white"; sb_region_ratio := 0.85; white_thr := 245;
     black_thr := 10; sb_min_area := 200; crop_bottom_px := 1;
     gamma := 0.7; gauss_sigma := 1.0; adapthist_clip := 0.02;
     adapthist_tiles := (4, 4)%Z |}.

Definition test_lib : Skimage :=
  {| io_imread := fun _ => Returns test_picture;
     rgb2gray_raises := fun _ => None;
     str_lower := lower;
     str_lower_ascii := fun s _ => eq_refl;
     float_mul := Rmult;
     rgb2gray := fun _ => [];
     remove_small_objects := fun bw _ => bw;
     label := map (map (fun b : bool => if b then 1 else 0)%Z);
     regionprops := fun labels =>
       if (length labels =? 1)%nat then [bar_component; speck_component]
       else test_discs;
     equalize_adapthist := fun a _ _ => a;
     adjust_gamma := fun a _ => a;
     gaussian := fun a _ => a;
     threshold_otsu := fun _ => 0.5;
     binary_fill_holes := fun bw => bw |}.

(** A store with a session at reference 0, its list at 1 and a list of new
    values at 2. *)
Definition test_store : store :=
  [SessionObj default_Thresholds 1%nat; ListObj [5; 6]; ListObj [7; 4.5]].

(** ** [Analyzer.__init__]

    [self.settings = settings or AnalyzerSettings()]; a dataclass instance is
    always truthy, so only [None] selects the defaults. *)
Definition Analyzer_init (settings : option AnalyzerSettings)
  : AnalyzerSettings :=
  match settings with
  | Some s => s
  | None => default_AnalyzerSettings
  end.

(** ** [SessionState()]

    Both fields come from their default factories: the list is a new object
    of the store, the session object refers to it. *)
Definition SessionState_new (h : store) : store * ref :=
  let tot := length h in
  (h ++ [ListObj []; SessionObj default_Thresholds tot], S tot).

(** [self.total_nm] read through the session object. *)
Definition session_total_nm (h : store) (self : ref) : option (list R) :=
  match lookup h self with
  | Some (SessionObj _ tot) =>
      match lookup h tot with
      | Some (ListObj items) => Some items
      | _ => None
      end
  | _ => None
  end.

(** ** [core/io_utils.py]

    Files hold text; [open(path, "w")] either fails (no result) or replaces
    the content of [path].  The text [f"{v}"] of a value is the parameter
    [fmt]: the source leaves it to the default conversion. *)
Module io_utils.

Record CsvSaveResult : Type := {
  path : string;
  count : nat
}.

Record filesystem : Type := {
  contents : string -> option string;
  writable : string -> bool
}.

Definition newline_char : ascii := ascii_of_nat 10.

Definition newline : string := String newline_char EmptyString.

(** The file after [open(p, "w")], the writes and the close. *)
Definition write_file (fs : filesystem) (p text : string) : filesystem :=
  {| contents := fun q => if String.eqb q p then Some text else contents fs q;
     writable := writable fs |}.

(** Lines 12-16: one [f.write(f"{v}\n")] per value, in order. *)
Definition save_csv {A : Type} (fmt : A -> string) (fs : filesystem)
    (values : list A) (p : string) : option (filesystem * CsvSaveResult) :=
  if writable fs p then
    let text :=
      fold_left (fun written v => (written ++ (fmt v ++ newline))%string)
                values EmptyString in
    Some (write_file fs p text, {| path := p; count := length values |})
  else None.

(** The lines of a text, as reading the file line by line gives them,
    without their terminators. *)
Fixpoint lines_from (cur text : string) : list string :=
  match text with
  | EmptyString => match cur with EmptyString => [] | _ => [cur] end
  | String c rest =>
      if Ascii.eqb c newline_char then cur :: lines_from EmptyString rest
      else lines_from (cur ++ String c EmptyString)%string rest
  end.

Definition lines (text : string) : list string := lines_from EmptyString text.

Fixpoint has_newline (s : string) : bool :=
  match s with
  | EmptyString => false
  | String c rest => Ascii.eqb c newline_char || has_newline rest
  end.

End io_utils.

(** ** [gui/main_window.py]: the parts that decide what is measured, kept
    and exported.  Widgets are read as plain values; drawing, logging and
    message boxes are left out. *)
Module main_window.

(** The histogram controls: [spinHistBins], [spinHistMin], [spinHistMax] and
    [checkHistRange]. *)
Record HistWidgets : Type := {
  spinHistBins : Z;
  spinHistMin : R;
  spinHistMax : R;
  checkHistRange : bool
}.

(** Lines 80-86. *)
Definition _get_hist_params (w : HistWidgets) : Z * option R * option R :=
  let bins := spinHistBins w in
  let min_val := if checkHistRange w then Some (spinHistMin w) else None in
  let max_val := if checkHistRange w then Some (spinHistMax w) else None in
  match min_val, max_val with
  | Some lo, Some hi =>
      if Rleb hi lo then (bins, None, None) else (bins, min_val, max_val)
  | _, _ => (bins, min_val, max_val)
  end.

(** Lines 88-96. *)
Definition _filter_values_by_range (values : list R)
    (min_val max_val : option R) : list R :=
  match min_val, max_val with
  | Some lo, Some hi => filter (fun v => Rleb lo v && Rleb v hi) values
  | _, _ => values
  end.

(** Lines 188-189. *)
Definition _get_scale_bar_color (radioWhite : bool) : string :=
  if radioWhite then "white"%string else "black"%string.

(** [sum(values)]: left to right from 0. *)
Definition py_sum (values : list R) : R := fold_left Rplus values 0.

(** What a statistics label shows: a dash or a number, with or without the
    "(filtered)" suffix.  The two-decimal rendering of the number is not
    modelled. *)
Inductive stat_label : Type :=
| NoStat (filtered : bool)
| Stat (x : R) (filtered : bool).

(** Lines 129-148, on the list [self.session.total_nm]; [var ** 0.5] of the
    non-negative [var] is its square root. *)
Definition _update_stats_labels (total_nm : list R) (w : HistWidgets)
  : stat_label * stat_label :=
  let '(_, min_val, max_val) := _get_hist_params w in
  let values := _filter_values_by_range total_nm min_val max_val in
  let filtered :=
    match min_val, max_val with Some _, Some _ => true | _, _ => false end in
  match values with
  | [] => (NoStat filtered, NoStat filtered)
  | _ :: _ =>
      let mean := py_sum values / INR (length values) in
      let var :=
        py_sum (map (fun v => (v - mean) ^ 2) values) / INR (length values) in
      let std := sqrt var in
      (Stat mean filtered, Stat std filtered)
  end.

(** The window state the handlers read and write: the store with the
    session object, and the pending result with its path. *)
Record Gui : Type := {
  heap : store;
  session : ref;
  _pending_result : option ImageResult;
  _pending_path : option string
}.

(** Lines 191-193 of [_set_pending]. *)
Definition _set_pending (g : Gui) (result : option ImageResult)
    (p : option string) : Gui :=
  {| heap := heap g; session := session g;
     _pending_result := result; _pending_path := p |}.

(** Lines 32-35 of [__init__]. *)
Definition MainWindow_init (h : store) : Gui :=
  let '(h', s) := SessionState_new h in
  {| heap := h'; session := s; _pending_result := None;
     _pending_path := None |}.

Section Handlers.

Context {lib : Skimage}.

(** [io.imread]: the decoded picture, or no result when reading fails. *)
Variable imread : string -> option ndarray.


End Handlers.

(** Lines 300-310.  The list [result.values_nm] is an object of its own,
    placed in the store at a new reference. *)
Definition on_accept (g : Gui) : option Gui :=
  match _pending_result g with
  | None => Some g
  | Some result =>
      let values := length (heap g) in
      let h := heap g ++ [ListObj (values_nm result)] in
      match add_measurements h (session g) values with
      | Some h' =>
          Some (_set_pending {| heap := h'; session := session g;
                                _pending_result := _pending_result g;
                                _pending_path := _pending_path g |}
                  None None)
      | None => None
      end
  end.

(** Lines 312-319. *)
Definition on_skip (g : Gui) : Gui :=
  match _pending_result g with
  | None => g
  | Some _ => _set_pending g None None
  end.

(** What [on_export] ends with. *)
Inductive export_event : Type :=
| NoData
| NoDataInRange
| SaveCanceled
| SavedCsv (filtered : bool) (result : io_utils.CsvSaveResult).

(** Lines 321-352.  [dialog_path] is the answer of the file dialog, empty
    when it is cancelled. *)
Definition on_export (fmt : R -> string) (g : Gui) (w : HistWidgets)
    (fs : io_utils.filesystem) (dialog_path : string)
  : option (io_utils.filesystem * export_event) :=
  match total_count (heap g) (session g), session_total_nm (heap g) (session g) with
  | Some n, Some total =>
      if (n =? 0)%nat then Some (fs, NoData)
      else
        let '(_, min_val, max_val) := _get_hist_params w in
        let '(export_values, filtered) :=
          match min_val, max_val with
          | Some _, Some _ =>
              (_filter_values_by_range total min_val max_val, true)
          | _, _ => (total, false)
          end in
        match export_values with
        | [] => Some (fs, NoDataInRange)
        | _ :: _ =>
            if negb (truthy dialog_path) then Some (fs, SaveCanceled)
            else
              match io_utils.save_csv fmt fs export_values dialog_path with
              | Some (fs', result) => Some (fs', SavedCsv filtered result)
              | None => None
              end
        end
  | _, _ => None
  end.

End main_window.

(** * Properties *)

(** ** The number model *)

Lemma Rleb_true_iff (x y : R) : Rleb x y = true <-> x <= y.
Proof.
  unfold Rleb. destruct (Rle_dec x y); split; intros; try easy.
Qed.

Lemma Rleb_false_iff (x y : R) : Rleb x y = false <-> y < x.
Proof.
  unfold Rleb. destruct (Rle_dec x y); split; intros; try easy; lra.
Qed.

Lemma Rgeb_true_iff (x y : R) : Rgeb x y = true <-> x >= y.
Proof.
  unfold Rgeb. rewrite Rleb_true_iff. split; lra.
Qed.

Lemma Rgtb_true_iff (x y : R) : Rgtb x y = true <-> x > y.
Proof.
  unfold Rgtb. destruct (Rgt_dec x y); split; intros; try easy.
Qed.

Lemma negb_Rgtb (x y : R) : negb (Rgtb x y) = Rleb x y.
Proof.
  unfold Rgtb, Rleb.
  destruct (Rgt_dec x y), (Rle_dec x y); simpl; try reflexivity; lra.
Qed.

(** Deciding comparisons between numerals. *)
Ltac Rdecide :=
  repeat match goal with
         | |- context [Rleb ?a ?b] =>
             first [ replace (Rleb a b) with true
                       by (symmetry; apply Rleb_true_iff; lra)
                   | replace (Rleb a b) with false
                       by (symmetry; apply Rleb_false_iff; lra) ]
         | |- context [Rgeb ?a ?b] => unfold Rgeb
         end.

Lemma py_int_between (x : R) (z : Z) :
  0 <= IZR z -> IZR z <= x < IZR z + 1 -> py_int x = z.
Proof.
  intros Hz [Hlo Hhi]. unfold py_int.
  destruct (Rlt_dec x 0) as [Hneg | _]; [lra |].
  symmetry. apply Int_part_spec. lra.
Qed.

(** ** Lists, masks and the stable sort *)

Lemma np_and_map {A : Type} (f g : A -> bool) (l : list A) :
  np_and (map f l) (map g l) = map (fun x => f x && g x) l.
Proof.
  unfold np_and. induction l as [| x l IH]; simpl; [reflexivity |].
  f_equal. exact IH.
Qed.

Lemma bool_index_map {A B : Type} (f : A -> B) (g : A -> bool) (l : list A) :
  bool_index (map f l) (map g l) = map f (filter g l).
Proof.
  induction l as [| x l IH]; simpl; [reflexivity |].
  destruct (g x); simpl; rewrite IH; reflexivity.
Qed.

Lemma bool_index_filter {A : Type} (g : A -> bool) (l : list A) :
  bool_index l (map g l) = filter g l.
Proof.
  rewrite <- (map_id l) at 1. rewrite bool_index_map. apply map_id.
Qed.

Lemma bool_index_length {A : Type} (a : list A) (mask : list bool) :
  (length (bool_index a mask) <= length a)%nat.
Proof.
  revert mask. induction a as [| x a IH]; intros [| b mask]; simpl; try lia.
  specialize (IH mask). destruct b; simpl; lia.
Qed.

Lemma circles_loop_acc (g : RegionProps -> bool) (l : list RegionProps)
    (acc : list (R * R * R)) :
  fold_left circles_step (combine l (map g l)) acc
  = acc ++ map circle_of (filter g l).
Proof.
  revert acc. induction l as [| p l IH]; intros acc; simpl.
  - now rewrite app_nil_r.
  - rewrite IH. destruct (g p); simpl.
    + unfold circle_of. destruct (centroid p) as [cy cx]. simpl.
      now rewrite <- app_assoc.
    + reflexivity.
Qed.

Lemma collect_circles_filter (g : RegionProps -> bool) (l : list RegionProps) :
  collect_circles l (map g l) = map circle_of (filter g l).
Proof.
  unfold collect_circles. now rewrite circles_loop_acc.
Qed.

Lemma valid_mask_map (props : list RegionProps) (npp : R) (t : Thresholds) :
  valid_mask props npp t = map (accepts npp t) props.
Proof.
  unfold valid_mask. rewrite !map_map.
  rewrite !np_and_map. reflexivity.
Qed.

Lemma accepts_true_iff (npp : R) (t : Thresholds) (p : RegionProps) :
  accepts npp t p = true <->
  (min_nm t <= equivalent_diameter p * npp <= max_nm t
   /\ eccentricity p <= ecc_max t
   /\ solidity p >= sol_min t).
Proof.
  unfold accepts. rewrite !andb_true_iff, !Rgeb_true_iff, !Rleb_true_iff.
  split; intros; repeat split; try tauto; lra.
Qed.

Lemma measure_accepted (props : list RegionProps) (npp : R) (t : Thresholds) :
  measure props npp t =
  match accepted props npp t with
  | [] => empty_result
  | _ :: _ =>
      let values :=
        map (fun p => equivalent_diameter p * npp) (accepted props npp t) in
      {| count := length values;
         mean_nm := Some (np_mean values);
         std_nm := Some (np_std 0 values);
         values_nm := values;
         circles := map circle_of (accepted props npp t) |}
  end.
Proof.
  unfold measure, accepted. destruct props as [| p0 props]; [reflexivity |].
  rewrite valid_mask_map, map_map, bool_index_map, collect_circles_filter.
  destruct (filter (accepts npp t) (p0 :: props)); reflexivity.
Qed.

Lemma measure_count (props : list RegionProps) (npp : R) (t : Thresholds) :
  count (measure props npp t) = length (accepted props npp t).
Proof.
  rewrite measure_accepted.
  destruct (accepted props npp t); simpl; [reflexivity |].
  now rewrite length_map.
Qed.

Lemma measure_values (props : list RegionProps) (npp : R) (t : Thresholds) :
  values_nm (measure props npp t)
  = map (fun p => equivalent_diameter p * npp) (accepted props npp t).
Proof.
  rewrite measure_accepted. destruct (accepted props npp t); reflexivity.
Qed.

Lemma measure_circles (props : list RegionProps) (npp : R) (t : Thresholds) :
  circles (measure props npp t) = map circle_of (accepted props npp t).
Proof.
  rewrite measure_accepted. destruct (accepted props npp t); reflexivity.
Qed.

(** ** The pipeline as a sequence of stages *)

Section PipelineFacts.

Context {lib : Skimage}.
Variable settings : AnalyzerSettings.
Variables (image : ndarray) (known_nm : R) (t : Thresholds).
Variable color_arg : option string.

Lemma analyze_image_stages (sb_bw : bin_image) (npp : R) (roi_f : gray_image) :
  scale_bar_mask settings (to_gray image) (effective_color settings color_arg)
    = Returns sb_bw ->
  calibrate (scale_bar_components settings sb_bw) known_nm = Returns npp ->
  enhance settings (to_gray image) = Returns roi_f ->
  analyze_image settings image known_nm t color_arg
    = Returns (measure (segment roi_f) npp t).
Proof.
  intros Hmask Hcal Henh. unfold analyze_image.
  rewrite Hmask. simpl. rewrite Hcal. simpl. rewrite Henh. reflexivity.
Qed.

Lemma analyze_image_returns (r : ImageResult) :
  analyze_image settings image known_nm t color_arg = Returns r ->
  exists sb_bw npp roi_f,
    scale_bar_mask settings (to_gray image) (effective_color settings color_arg)
      = Returns sb_bw
    /\ calibrate (scale_bar_components settings sb_bw) known_nm = Returns npp
    /\ enhance settings (to_gray image) = Returns roi_f
    /\ r = measure (segment roi_f) npp t.
Proof.
  unfold analyze_image.
  destruct (scale_bar_mask _ _ _) as [sb_bw | e] eqn:Hmask; simpl;
    [| discriminate].
  destruct (calibrate _ _) as [npp | e] eqn:Hcal; simpl; [| discriminate].
  destruct (enhance _ _) as [roi_f | e] eqn:Henh; simpl; [| discriminate].
  intros H. injection H as <-. exists sb_bw, npp, roi_f. auto.
Qed.

End PipelineFacts.

(** ** The test scene, evaluated *)

Lemma test_calibrate (sb_bw : bin_image) (known_nm : R) :
  length sb_bw = 1%nat ->
  calibrate (scale_bar_components (lib := test_lib) test_settings sb_bw) known_nm
  = Returns (known_nm / 100).
Proof.
  intros Hlen. unfold scale_bar_components. cbn [regionprops label test_lib
    remove_small_objects]. rewrite length_map, Hlen. reflexivity.
Qed.

Lemma test_mask :
  scale_bar_mask (lib := test_lib) test_settings
    (to_gray (lib := test_lib) test_picture) "white"
  = Returns [[true; true]].
Proof.
  unfold scale_bar_mask. cbn [String.eqb Ascii.eqb Bool.eqb]. cbv iota.
  unfold to_gray, test_picture.
  cbn [map length Z.of_nat Pos.of_succ_nat Pos.succ sb_region_ratio
       test_settings float_mul test_lib].
  rewrite (py_int_between _ 3) by lra.
  unfold slice_from. cbn -[Rgeb IZR Rdiv].
  change (Pos.to_nat 3) with 3%nat. cbn [skipn map]. Rdecide. reflexivity.
Qed.

Lemma test_enhance :
  enhance (lib := test_lib) test_settings (to_gray (lib := test_lib) test_picture)
  = Returns [[30 / 255; 200 / 255]; [200 / 255; 30 / 255];
             [200 / 255; 200 / 255]].
Proof. unfold enhance. cbn -[IZR Rdiv]. reflexivity. Qed.

Lemma test_segment (roi_f : gray_image) :
  length roi_f = 3%nat -> segment (lib := test_lib) roi_f = test_discs.
Proof.
  intros Hlen. unfold segment, binarize, logical_not.
  cbn [regionprops label test_lib remove_small_objects binary_fill_holes].
  rewrite !length_map, Hlen. reflexivity.
Qed.

Lemma test_run (known_nm : R) (t : Thresholds) (c : string) :
  lower c = "white"%string ->
  analyze_image (lib := test_lib) test_settings test_picture known_nm t (Some c)
  = Returns (measure test_discs (known_nm / 100) t).
Proof.
  intros Hc.
  assert (Hcol : effective_color (lib := test_lib) test_settings (Some c)
                 = "white"%string).
  { unfold effective_color. destruct c; [discriminate Hc | exact Hc]. }
  rewrite (analyze_image_stages (lib := test_lib) test_settings test_picture
             known_nm t (Some c) [[true; true]] (known_nm / 100) _
             ltac:(rewrite Hcol; exact test_mask)
             (test_calibrate [[true; true]] known_nm eq_refl) test_enhance).
  now rewrite test_segment.
Qed.

Lemma test_accepted_base :
  accepted test_discs (50 / 100) default_Thresholds = [disc_a; disc_c].
Proof.
  unfold accepted, test_discs, accepts. simpl. Rdecide. reflexivity.
Qed.

Lemma test_accepted_doubled :
  accepted test_discs (2 * 50 / 100) default_Thresholds = [disc_c].
Proof.
  unfold accepted, test_discs, accepts. simpl. Rdecide. reflexivity.
Qed.

Lemma test_measure_base :
  measure test_discs (50 / 100) default_Thresholds
  = {| count := 2;
       mean_nm := Some (np_mean [16 * (50 / 100); 8 * (50 / 100)]);
       std_nm := Some (np_std 0 [16 * (50 / 100); 8 * (50 / 100)]);
       values_nm := [16 * (50 / 100); 8 * (50 / 100)];
       circles := [(30, 20, 16 / 2); (52, 62, 8 / 2)] |}.
Proof. rewrite measure_accepted, test_accepted_base. reflexivity. Qed.

Lemma test_measure_doubled :
  measure test_discs (2 * 50 / 100) default_Thresholds
  = {| count := 1;
       mean_nm := Some (np_mean [8 * (2 * 50 / 100)]);
       std_nm := Some (np_std 0 [8 * (2 * 50 / 100)]);
       values_nm := [8 * (2 * 50 / 100)];
       circles := [(52, 62, 8 / 2)] |}.
Proof. rewrite measure_accepted, test_accepted_doubled. reflexivity. Qed.

(** ** The session store *)

Lemma lookup_update_same (h : store) (r : ref) (o o' : object) :
  lookup h r = Some o -> lookup (update h r o') r = Some o'.
Proof.
  unfold lookup. revert r.
  induction h as [| x h IH]; intros [| r]; simpl; try discriminate; auto.
Qed.

Lemma lookup_update_other (h : store) (r r' : ref) (o' : object) :
  r' <> r -> lookup (update h r o') r' = lookup h r'.
Proof.
  unfold lookup. revert r r'.
  induction h as [| x h IH]; intros [| r] [| r'] Hne; simpl;
    try reflexivity; try congruence.
  apply IH. congruence.
Qed.

(** C10: [add_measurements] replaces the session's list by the old list
    followed by [values], in their order, and changes no other object of the
    store: the session object keeps its thresholds and its list reference,
    and [total_count] afterwards is the old count plus [len(values)].  The
    statement covers the call in which [values] is the session's own list. *)
Theorem add_measurements_appends (h : store) (self values tot : ref)
    (thr : Thresholds) (old vs : list R) :
  lookup h self = Some (SessionObj thr tot) ->
  lookup h tot = Some (ListObj old) ->
  lookup h values = Some (ListObj vs) ->
  exists h',
    add_measurements h self values = Some h'
    /\ lookup h' tot = Some (ListObj (old ++ vs))
    /\ (forall r, r <> tot -> lookup h' r = lookup h r)
    /\ lookup h' self = Some (SessionObj thr tot)
    /\ total_count h self = Some (length old)
    /\ total_count h' self = Some (length old + length vs)%nat.
Proof.
  intros Hself Htot Hvals.
  assert (Hne : self <> tot) by (intros ->; congruence).
  exists (update h tot (ListObj (old ++ vs))).
  assert (Hnew : lookup (update h tot (ListObj (old ++ vs))) tot
                 = Some (ListObj (old ++ vs)))
    by (eapply lookup_update_same; eassumption).
  assert (Hkeep : lookup (update h tot (ListObj (old ++ vs))) self
                  = Some (SessionObj thr tot))
    by (rewrite lookup_update_other; assumption).
  repeat split.
  - unfold add_measurements, list_extend. now rewrite Hself, Htot, Hvals.
  - exact Hnew.
  - intros r Hr. now apply lookup_update_other.
  - exact Hkeep.
  - unfold total_count, list_len. now rewrite Hself, Htot.
  - unfold total_count, list_len. rewrite Hkeep, Hnew. now rewrite length_app.
Qed.

Lemma add_measurements_appends_witness :
  exists h',
    add_measurements test_store 0%nat 2%nat = Some h'
    /\ lookup h' 1%nat = Some (ListObj ([5; 6] ++ [7; 4.5]))
    /\ (forall r, r <> 1%nat -> lookup h' r = lookup test_store r)
    /\ lookup h' 0%nat = Some (SessionObj default_Thresholds 1%nat)
    /\ total_count test_store 0%nat = Some 2%nat
    /\ total_count h' 0%nat = Some 4%nat.
Proof.
  apply (add_measurements_appends test_store 0%nat 2%nat 1%nat
           default_Thresholds [5; 6] [7; 4.5]); reflexivity.
Defined.

(** The aliased call [session.add_measurements(session.total_nm)]. *)
Example add_measurements_aliased :
  add_measurements test_store 0%nat 1%nat
  = Some [SessionObj default_Thresholds 1%nat; ListObj [5; 6; 5; 6];
          ListObj [7; 4.5]].
Proof. reflexivity. Qed.

(** ** Filtering *)

(** C2: the filter keeps a region exactly when its diameter in nm,
    [equivalent_diameter * nm_per_pix], lies in [[min_nm, max_nm]] (both ends
    included), its eccentricity is at most [ecc_max] and its solidity at
    least [sol_min]; the values and circles of the result are those of the
    kept regions in segmentation order: they are the images of the list of
    regions filtered by any test that decides the three conditions, and
    [count] is the length of that list. *)
Theorem filter_accepts_iff (props : list RegionProps) (npp : R)
    (t : Thresholds) :
  let valid := valid_mask props npp t in
  length valid = length props
  /\ (forall i p, nth_error props i = Some p ->
        exists keep,
          nth_error valid i = Some keep
          /\ (keep = true <->
              (min_nm t <= equivalent_diameter p * npp <= max_nm t
               /\ eccentricity p <= ecc_max t
               /\ solidity p >= sol_min t)))
  /\ values_nm (measure props npp t)
     = map (fun p => equivalent_diameter p * npp) (bool_index props valid)
  /\ circles (measure props npp t)
     = map (fun p => (snd (centroid p), fst (centroid p),
                      equivalent_diameter p / 2))
           (bool_index props valid)
  /\ forall keeps : RegionProps -> bool,
       (forall p, keeps p = true <->
                  (min_nm t <= equivalent_diameter p * npp <= max_nm t
                   /\ eccentricity p <= ecc_max t
                   /\ solidity p >= sol_min t)) ->
       values_nm (measure props npp t)
       = map (fun p => equivalent_diameter p * npp) (filter keeps props)
       /\ circles (measure props npp t)
          = map (fun p => (snd (centroid p), fst (centroid p),
                           equivalent_diameter p / 2))
                (filter keeps props)
       /\ count (measure props npp t) = length (filter keeps props).
Proof.
  cbv zeta. rewrite valid_mask_map, bool_index_filter.
  split; [apply length_map |]. split; [| split; [| split]].
  - intros i p Hp. exists (accepts npp t p). rewrite nth_error_map, Hp.
    split; [reflexivity | apply accepts_true_iff].
  - apply measure_values.
  - apply measure_circles.
  - intros keeps Hkeeps.
    assert (Hsame : filter keeps props = accepted props npp t).
    { unfold accepted. apply filter_ext. intros p.
      destruct (keeps p) eqn:Hk, (accepts npp t p) eqn:Ha; try reflexivity.
      - apply Hkeeps, accepts_true_iff in Hk. congruence.
      - apply accepts_true_iff, Hkeeps in Ha. congruence. }
    rewrite Hsame. split; [apply measure_values |].
    split; [apply measure_circles | apply measure_count].
Qed.

Lemma filter_accepts_iff_witness :
  (exists keep,
      nth_error (valid_mask test_discs 1 default_Thresholds) 1 = Some keep
      /\ (keep = true <->
          (min_nm default_Thresholds <= equivalent_diameter disc_b * 1
             <= max_nm default_Thresholds
           /\ eccentricity disc_b <= ecc_max default_Thresholds
           /\ solidity disc_b >= sol_min default_Thresholds)))
  /\ values_nm (measure test_discs (50 / 100) default_Thresholds)
     = [16 * (50 / 100); 8 * (50 / 100)]
  /\ count (measure test_discs (50 / 100) default_Thresholds) = 2%nat.
Proof.
  split.
  - apply (proj1 (proj2 (filter_accepts_iff test_discs 1 default_Thresholds))
             1%nat disc_b).
    reflexivity.
  - destruct (filter_accepts_iff test_discs (50 / 100) default_Thresholds)
      as (_ & _ & _ & _ & Hkept).
    destruct (Hkept (accepts (50 / 100) default_Thresholds)
                (accepts_true_iff (50 / 100) default_Thresholds))
      as (Hvalues & _ & Hcount).
    fold (accepted test_discs (50 / 100) default_Thresholds) in Hvalues, Hcount.
    rewrite test_accepted_base in Hvalues, Hcount.
    split; [exact Hvalues | exact Hcount].
Defined.

(** ** Cardinality and order of the result *)

(** C4: in every result [analyze_image] returns, [values_nm] and [circles]
    both have [count] entries, and both are computed, entry by entry, from
    one list of regions: the segmented regions kept by the acceptance mask,
    in segmentation order. *)
Theorem result_cardinality {lib : Skimage} (settings : AnalyzerSettings)
    (image : ndarray) (known_nm : R) (t : Thresholds)
    (color_arg : option string) (r : ImageResult) :
  analyze_image settings image known_nm t color_arg = Returns r ->
  length (values_nm r) = count r
  /\ length (circles r) = count r
  /\ exists sb_bw npp roi_f,
       calibrate (scale_bar_components settings sb_bw) known_nm = Returns npp
       /\ enhance settings (to_gray image) = Returns roi_f
       /\ let kept := bool_index (segment roi_f)
                        (valid_mask (segment roi_f) npp t) in
          values_nm r = map (fun p => equivalent_diameter p * npp) kept
          /\ circles r = map (fun p => (snd (centroid p), fst (centroid p),
                                        equivalent_diameter p / 2)) kept
          /\ forall i p, nth_error kept i = Some p ->
               nth_error (values_nm r) i = Some (equivalent_diameter p * npp)
               /\ nth_error (circles r) i
                  = Some (snd (centroid p), fst (centroid p),
                          equivalent_diameter p / 2).
Proof.
  intros Hrun.
  destruct (analyze_image_returns _ _ _ _ _ _ Hrun)
    as (sb_bw & npp & roi_f & _ & Hcal & Henh & ->).
  rewrite measure_values, measure_circles, measure_count, !length_map.
  split; [reflexivity |]. split; [reflexivity |].
  exists sb_bw, npp, roi_f. split; [exact Hcal |]. split; [exact Henh |].
  cbv zeta. rewrite valid_mask_map, bool_index_filter.
  fold (accepted (segment roi_f) npp t).
  split; [reflexivity |]. split; [reflexivity |].
  intros i p Hp. rewrite !nth_error_map, Hp. split; reflexivity.
Qed.

Lemma result_cardinality_witness :
  length (values_nm (measure test_discs (50 / 100) default_Thresholds)) = 2%nat
  /\ length (circles (measure test_discs (50 / 100) default_Thresholds))
     = count (measure test_discs (50 / 100) default_Thresholds).
Proof.
  destruct (result_cardinality (lib := test_lib) test_settings test_picture 50
              default_Thresholds (Some "white"%string) _
              (test_run 50 default_Thresholds "white" eq_refl))
    as (Hvalues & Hcircles & _).
  split; [| exact Hcircles].
  rewrite Hvalues, test_measure_base. reflexivity.
Defined.

(** ** The empty result *)

(** C5: a returned result has [mean_nm] and [std_nm] equal to [None] exactly
    when [count] is 0; and when calibration and cropping succeed and the mask
    keeps no region, [analyze_image] returns the empty result
    ([count = 0], no values, no circles) instead of raising. *)
Theorem empty_result_contract {lib : Skimage} (settings : AnalyzerSettings)
    (image : ndarray) (known_nm : R) (t : Thresholds)
    (color_arg : option string) :
  (forall r,
      analyze_image settings image known_nm t color_arg = Returns r ->
      (mean_nm r = None <-> count r = 0%nat)
      /\ (std_nm r = None <-> count r = 0%nat)
      /\ (count r = 0%nat -> r = empty_result))
  /\ (forall sb_bw npp roi_f,
        scale_bar_mask settings (to_gray image)
          (effective_color settings color_arg) = Returns sb_bw ->
        calibrate (scale_bar_components settings sb_bw) known_nm
          = Returns npp ->
        enhance settings (to_gray image) = Returns roi_f ->
        bool_index (segment roi_f) (valid_mask (segment roi_f) npp t) = [] ->
        analyze_image settings image known_nm t color_arg
          = Returns empty_result).
Proof.
  split.
  - intros r Hrun.
    destruct (analyze_image_returns _ _ _ _ _ _ Hrun)
      as (sb_bw & npp & roi_f & _ & _ & _ & ->).
    rewrite measure_accepted.
    destruct (accepted (segment roi_f) npp t) as [| p l]; simpl.
    + repeat split; reflexivity.
    + repeat split; intros; discriminate.
  - intros sb_bw npp roi_f Hmask Hcal Henh Hnone.
    rewrite (analyze_image_stages _ _ _ _ _ _ _ _ Hmask Hcal Henh).
    rewrite measure_accepted. unfold accepted.
    rewrite valid_mask_map, bool_index_filter in Hnone.
    now rewrite Hnone.
Qed.

Lemma empty_result_contract_witness :
  analyze_image (lib := test_lib) test_settings test_picture 50
    (scale_size_bounds 10 default_Thresholds) (Some "white"%string)
  = Returns empty_result.
Proof.
  refine (proj2 (empty_result_contract (lib := test_lib) test_settings
                   test_picture 50 (scale_size_bounds 10 default_Thresholds)
                   (Some "white"%string))
            [[true; true]] (50 / 100) _
            test_mask (test_calibrate [[true; true]] 50 eq_refl)
            test_enhance _).
  rewrite test_segment by reflexivity.
  rewrite valid_mask_map, bool_index_filter.
  unfold test_discs, accepts. simpl. Rdecide. reflexivity.
Defined.

(** ** Summary statistics *)

Lemma Rsqr_Rabs_sq (x : R) : Rsqr (Rabs x) = x * x.
Proof. rewrite <- Rsqr_abs. reflexivity. Qed.

Lemma np_var_population (xs : list R) :
  np_var 0 xs
  = Rsum (map (fun x => (x - np_mean xs) * (x - np_mean xs)) xs)
    / INR (length xs).
Proof.
  unfold np_var. rewrite Nat.sub_0_r. f_equal. f_equal.
  apply map_ext. intros x. apply Rsqr_Rabs_sq.
Qed.

(** C9: when [count > 0], [mean_nm] is the sum of [values_nm] over [count]
    and [std_nm] is the square root of the sum of squared deviations from
    that mean over [count] (the population form: the divisor is [count], not
    [count - 1]). *)
Theorem mean_std_population {lib : Skimage} (settings : AnalyzerSettings)
    (image : ndarray) (known_nm : R) (t : Thresholds)
    (color_arg : option string) (r : ImageResult) :
  analyze_image settings image known_nm t color_arg = Returns r ->
  (0 < count r)%nat ->
  let n := INR (count r) in
  let m := Rsum (values_nm r) / n in
  mean_nm r = Some m
  /\ std_nm r
     = Some (sqrt (Rsum (map (fun x => (x - m) * (x - m)) (values_nm r)) / n)).
Proof.
  intros Hrun Hpos.
  destruct (analyze_image_returns _ _ _ _ _ _ Hrun)
    as (sb_bw & npp & roi_f & _ & _ & _ & ->).
  revert Hpos. rewrite measure_accepted.
  destruct (accepted (segment roi_f) npp t) as [| p l]; simpl count.
  - intros Hpos. inversion Hpos.
  - intros _. cbv zeta. cbn [mean_nm std_nm values_nm count].
    split; [reflexivity |].
    unfold np_std. rewrite np_var_population. reflexivity.
Qed.

Lemma mean_std_population_witness :
  mean_nm (measure test_discs (50 / 100) default_Thresholds) = Some 6
  /\ std_nm (measure test_discs (50 / 100) default_Thresholds) = Some 2.
Proof.
  assert (Hpos : (0 < count (measure test_discs (50 / 100) default_Thresholds))%nat).
  { rewrite measure_count, test_accepted_base. simpl. lia. }
  destruct (mean_std_population (lib := test_lib) test_settings test_picture 50
              default_Thresholds (Some "white"%string) _
              (test_run 50 default_Thresholds "white" eq_refl) Hpos)
    as [Hmean Hstd].
  cbv zeta in Hmean, Hstd. rewrite test_measure_base in *.
  cbn [mean_nm std_nm values_nm count map Rsum fold_right INR]
    in Hmean, Hstd |- *.
  split.
  - rewrite Hmean. f_equal. lra.
  - rewrite Hstd. f_equal.
    replace (_ / _) with (Rsqr 2) by (unfold Rsqr; lra).
    apply sqrt_Rsqr. lra.
Defined.

(** ** Threshold monotonicity *)

Lemma filter_length_mono {A : Type} (f g : A -> bool) (l : list A) :
  (forall x, f x = true -> g x = true) ->
  (length (filter f l) <= length (filter g l))%nat.
Proof.
  intros Himp. induction l as [| x l IH]; simpl; [lia |].
  destruct (f x) eqn:Hf.
  - rewrite (Himp x Hf). simpl. lia.
  - destruct (g x); simpl; lia.
Qed.

Lemma accepts_tighter (npp : R) (t t' : Thresholds) (p : RegionProps) :
  tighter t t' -> accepts npp t' p = true -> accepts npp t p = true.
Proof.
  intros (Hmin & Hmax & Hecc & Hsol). rewrite !accepts_true_iff.
  intros ([Hlo Hhi] & He & Hs). repeat split; lra.
Qed.

(** C6: with the image, the settings, the colour and [known_nm] fixed,
    replacing the thresholds by narrower ones ([min_nm] and [sol_min] not
    lower, [max_nm] and [ecc_max] not higher) still returns a result, and its
    [count] is not larger. *)
Theorem threshold_monotonicity {lib : Skimage} (settings : AnalyzerSettings)
    (image : ndarray) (known_nm : R) (t t' : Thresholds)
    (color_arg : option string) (r : ImageResult) :
  tighter t t' ->
  analyze_image settings image known_nm t color_arg = Returns r ->
  exists r',
    analyze_image settings image known_nm t' color_arg = Returns r'
    /\ (count r' <= count r)%nat.
Proof.
  intros Htight Hrun.
  destruct (analyze_image_returns _ _ _ _ _ _ Hrun)
    as (sb_bw & npp & roi_f & Hmask & Hcal & Henh & ->).
  exists (measure (segment roi_f) npp t'). split.
  - now apply analyze_image_stages with (sb_bw := sb_bw).
  - rewrite !measure_count. unfold accepted.
    apply filter_length_mono. intros p. now apply accepts_tighter.
Qed.

Lemma threshold_monotonicity_witness :
  exists r',
    analyze_image (lib := test_lib) test_settings test_picture 50
      {| min_nm := 5; max_nm := 9; ecc_max := 0.7; sol_min := 0.5 |}
      (Some "white"%string) = Returns r'
    /\ (count r' <= 2)%nat.
Proof.
  assert (Htight : tighter default_Thresholds
            {| min_nm := 5; max_nm := 9; ecc_max := 0.7; sol_min := 0.5 |})
    by (unfold tighter; simpl; lra).
  destruct (threshold_monotonicity (lib := test_lib) test_settings test_picture
              50 default_Thresholds _ (Some "white"%string) _ Htight
              (test_run 50 default_Thresholds "white" eq_refl))
    as (r' & Hrun & Hle).
  exists r'. split; [exact Hrun |].
  rewrite test_measure_base in Hle. exact Hle.
Defined.

(** ** Segmentation *)

(** C7: segmentation takes one Otsu level for the whole enhanced image; a
    pixel is foreground exactly when its value is at or below that level
    (the test [value > level] followed by the inversion); components under
    30 pixels are removed, then holes are filled, then the regions are
    labelled and measured. *)
Theorem segment_pipeline {lib : Skimage} (roi_f : gray_image) :
  let level := threshold_otsu roi_f in
  binarize roi_f = logical_not (map (map (fun v => Rgtb v level)) roi_f)
  /\ (forall i j row v,
        nth_error roi_f i = Some row -> nth_error row j = Some v ->
        exists brow fg,
          nth_error (binarize roi_f) i = Some brow
          /\ nth_error brow j = Some fg
          /\ (fg = true <-> v <= level))
  /\ segment roi_f
     = regionprops
         (label (binary_fill_holes (remove_small_objects (binarize roi_f) 30))).
Proof.
  cbv zeta. split; [reflexivity |]. split; [| reflexivity].
  intros i j row v Hrow Hv. unfold binarize, logical_not.
  exists (map negb (map (fun v => Rgtb v (threshold_otsu roi_f)) row)).
  exists (Rleb v (threshold_otsu roi_f)).
  split; [| split].
  - rewrite !nth_error_map, Hrow. reflexivity.
  - rewrite !nth_error_map, Hv. simpl. now rewrite negb_Rgtb.
  - apply Rleb_true_iff.
Qed.

Lemma segment_pipeline_witness :
  exists brow fg,
    nth_error (binarize (lib := test_lib) [[0.2; 0.5; 0.8]]) 0%nat = Some brow
    /\ nth_error brow 1%nat = Some fg
    /\ (fg = true <-> 0.5 <= threshold_otsu (Skimage := test_lib) [[0.2; 0.5; 0.8]]).
Proof.
  apply (proj1 (proj2 (segment_pipeline (lib := test_lib) [[0.2; 0.5; 0.8]]))
           0%nat 1%nat [0.2; 0.5; 0.8] 0.5); reflexivity.
Defined.

(** ** Calibration *)

Lemma insert_by_area_desc_perm (p : RegionProps) (l : list RegionProps) :
  Permutation (insert_by_area_desc p l) (p :: l).
Proof.
  induction l as [| q l IH]; simpl; [reflexivity |].
  destruct (area q <=? area p)%Z; [reflexivity |].
  rewrite IH. apply perm_swap.
Qed.

Lemma sort_by_area_desc_perm (l : list RegionProps) :
  Permutation (sort_by_area_desc l) l.
Proof.
  induction l as [| p l IH]; simpl; [reflexivity |].
  rewrite insert_by_area_desc_perm. now apply perm_skip.
Qed.

Lemma insert_by_area_desc_sorted (p : RegionProps) (l : list RegionProps) :
  Sorted (fun a b => (area b <= area a)%Z) l ->
  Sorted (fun a b => (area b <= area a)%Z) (insert_by_area_desc p l).
Proof.
  induction 1 as [| q l Hl IH Hq]; simpl.
  - repeat constructor.
  - destruct (area q <=? area p)%Z eqn:Hcmp.
    + apply Z.leb_le in Hcmp. repeat constructor; assumption.
    + apply Z.leb_gt in Hcmp. constructor; [exact IH |].
      destruct Hq as [| r l' Hr]; simpl.
      * constructor. lia.
      * destruct (area r <=? area p)%Z; constructor; lia.
Qed.

Lemma sort_by_area_desc_sorted (l : list RegionProps) :
  Sorted (fun a b => (area b <= area a)%Z) (sort_by_area_desc l).
Proof.
  induction l as [| p l IH]; simpl; [constructor |].
  now apply insert_by_area_desc_sorted.
Qed.

(** The head of the sorted list is the first component of largest area. *)
Lemma sort_by_area_desc_head (pre post : list RegionProps) (bar : RegionProps) :
  Forall (fun q => (area q < area bar)%Z) pre ->
  Forall (fun q => (area q <= area bar)%Z) post ->
  exists rest, sort_by_area_desc (pre ++ bar :: post) = bar :: rest.
Proof.
  intros Hpre Hpost. induction Hpre as [| p pre Hp _ IH]; simpl.
  - destruct (sort_by_area_desc post) as [| q rest] eqn:Hsort; simpl.
    + now exists [].
    + assert (Hin : In q post).
      { apply (Permutation_in q (sort_by_area_desc_perm post)).
        rewrite Hsort. now left. }
      rewrite Forall_forall in Hpost. apply Hpost in Hin.
      apply Z.leb_le in Hin. rewrite Hin. now exists (q :: rest).
  - destruct IH as [rest ->]. simpl.
    replace (area bar <=? area p)%Z with false
      by (symmetry; apply Z.leb_gt; exact Hp).
    now exists (insert_by_area_desc p rest).
Qed.

Lemma calibrate_largest (comps pre post : list RegionProps) (bar : RegionProps)
    (known_nm : R) :
  comps = pre ++ bar :: post ->
  Forall (fun q => (area q < area bar)%Z) pre ->
  Forall (fun q => (area q <= area bar)%Z) post ->
  calibrate comps known_nm =
  let '(minr, minc, maxr, maxc) := bbox bar in
  if (maxc - minc <=? 0)%Z then Raises (ValueError "Invalid scale bar width.")
  else Returns (known_nm / IZR (maxc - minc)).
Proof.
  intros -> Hpre Hpost. unfold calibrate.
  destruct (sort_by_area_desc_head pre post bar Hpre Hpost) as [rest ->].
  destruct pre; reflexivity.
Qed.

(** C3: with a valid colour, the bar mask marks the pixels of the bottom
    strip that are at or above [white_thr / 255] (white) or at or below
    [black_thr / 255] (black), and the components considered are those that
    [regionprops] reports on the labelling of that mask after
    [remove_small_objects] with [sb_min_area].  When none is left the
    analysis raises "Scale bar not found"; otherwise the component of
    largest area is taken, the first one in label order among equals; the
    bar width is [max_col - min_col] of its bounding box; a width [<= 0]
    raises "Invalid scale bar width", and any other width gives
    [nm_per_pix = known_nm / bar_width_px], with which the regions are
    measured. *)
Theorem calibration_contract {lib : Skimage} (settings : AnalyzerSettings)
    (image : ndarray) (known_nm : R) (t : Thresholds)
    (color_arg : option string) (sb_bw : bin_image) :
  scale_bar_mask settings (to_gray image) (effective_color settings color_arg)
    = Returns sb_bw ->
  let comps :=
    regionprops (label (remove_small_objects sb_bw (sb_min_area settings))) in
  let strip :=
    slice_from
      (py_int (float_mul (IZR (Z.of_nat (length (to_gray image))))
                 (sb_region_ratio settings)))
      (to_gray image) in
  (effective_color settings color_arg = "white"%string ->
   sb_bw = map (map (fun v => Rgeb v (IZR (white_thr settings) / 255))) strip)
  /\ (effective_color settings color_arg = "black"%string ->
      sb_bw = map (map (fun v => Rleb v (IZR (black_thr settings) / 255))) strip)
  /\ (comps = [] ->
   analyze_image settings image known_nm t color_arg
   = Raises (ValueError "Scale bar not found. Adjust threshold or region."))
  /\ (forall pre bar post minr minc maxr maxc,
        comps = pre ++ bar :: post ->
        Forall (fun q => (area q < area bar)%Z) pre ->
        Forall (fun q => (area q <= area bar)%Z) post ->
        bbox bar = (minr, minc, maxr, maxc) ->
        let bar_width_px := (maxc - minc)%Z in
        ((bar_width_px <= 0)%Z ->
         analyze_image settings image known_nm t color_arg
         = Raises (ValueError "Invalid scale bar width."))
        /\ ((0 < bar_width_px)%Z ->
            calibrate comps known_nm = Returns (known_nm / IZR bar_width_px)
            /\ forall roi_f,
                 enhance settings (to_gray image) = Returns roi_f ->
                 analyze_image settings image known_nm t color_arg
                 = Returns (measure (segment roi_f)
                              (known_nm / IZR bar_width_px) t))).
Proof.
  intros Hmask. cbv zeta.
  change (regionprops
            (label (remove_small_objects sb_bw (sb_min_area settings))))
    with (scale_bar_components settings sb_bw).
  split; [| split].
  { intros Hwhite. unfold scale_bar_mask in Hmask. rewrite Hwhite in Hmask.
    simpl in Hmask. now injection Hmask as <-. }
  { intros Hblack. unfold scale_bar_mask in Hmask. rewrite Hblack in Hmask.
    simpl in Hmask. now injection Hmask as <-. }
  split.
  - intros Hnone. unfold analyze_image. rewrite Hmask. simpl bind.
    rewrite Hnone. reflexivity.
  - intros pre bar post minr minc maxr maxc Hcomps Hpre Hpost Hbox.
    pose proof (calibrate_largest _ _ _ _ known_nm Hcomps Hpre Hpost) as Hcal.
    rewrite Hbox in Hcal. split.
    + intros Hw. apply Z.leb_le in Hw. rewrite Hw in Hcal.
      unfold analyze_image. rewrite Hmask. simpl bind. rewrite Hcal.
      reflexivity.
    + intros Hw. apply Z.leb_gt in Hw. rewrite Hw in Hcal.
      split; [exact Hcal |]. intros roi_f Henh.
      now apply analyze_image_stages with (sb_bw := sb_bw).
Qed.

Lemma calibration_contract_witness :
  calibrate
    (regionprops (Skimage := test_lib)
       (label (Skimage := test_lib)
          (remove_small_objects (Skimage := test_lib) [[true; true]]
             (sb_min_area test_settings))))
    100
  = Returns (100 / IZR (110 - 10)).
Proof.
  destruct (calibration_contract (lib := test_lib) test_settings test_picture
              100 default_Thresholds (Some "white"%string) [[true; true]]
              test_mask) as (_ & _ & _ & Hbar).
  refine (proj1 (proj2 (Hbar [] bar_component [speck_component]
                          1%Z 10%Z 11%Z 110%Z eq_refl _ _ eq_refl) _)).
  - constructor.
  - repeat constructor. simpl. lia.
  - simpl. lia.
Defined.

(** No component left, and a degenerate bounding box. *)
Example calibrate_not_found (known_nm : R) :
  calibrate [] known_nm
  = Raises (ValueError "Scale bar not found. Adjust threshold or region.").
Proof. reflexivity. Qed.

Example calibrate_invalid_width (known_nm : R) :
  calibrate [{| area := 0; bbox := (0, 5, 0, 5)%Z; equivalent_diameter := 0;
                eccentricity := 0; solidity := 0; centroid := (0, 0) |}]
    known_nm
  = Raises (ValueError "Invalid scale bar width.").
Proof. reflexivity. Qed.

(** ** The colour selector *)

Lemma calibrate_raises_not_color (sb_props : list RegionProps) (known_nm : R) :
  calibrate sb_props known_nm
  <> Raises (ValueError "Scale bar color must be 'white' or 'black'.").
Proof.
  unfold calibrate. destruct sb_props as [| p l]; [discriminate |].
  destruct (sort_by_area_desc (p :: l)) as [| bar rest]; [discriminate |].
  destruct (bbox bar) as [[[minr minc] maxr] maxc].
  destruct (maxc - minc <=? 0)%Z; discriminate.
Qed.

Lemma after_mask_not_color {lib : Skimage} (settings : AnalyzerSettings)
    (gray : gray_image) (known_nm : R) (t : Thresholds) (sb_bw : bin_image) :
  (nm_per_pix <- calibrate (scale_bar_components settings sb_bw) known_nm ;;
   roi_f <- enhance settings gray ;;
   Returns (measure (segment roi_f) nm_per_pix t))
  <> Raises (ValueError "Scale bar color must be 'white' or 'black'.").
Proof.
  pose proof (calibrate_raises_not_color
                (scale_bar_components settings sb_bw) known_nm) as Hcal.
  destruct (calibrate _ _) as [npp | e]; simpl;
    [| intros H; apply Hcal; congruence].
  unfold enhance. destruct (_ <=? 1)%Z; simpl; discriminate.
Qed.

Lemma analyze_image_color_error {lib : Skimage} (settings : AnalyzerSettings)
    (image : ndarray) (known_nm : R) (t : Thresholds)
    (color_arg : option string) :
  analyze_image settings image known_nm t color_arg
    = Raises (ValueError "Scale bar color must be 'white' or 'black'.")
  <-> (effective_color settings color_arg <> "white"%string
       /\ effective_color settings color_arg <> "black"%string).
Proof.
  unfold analyze_image, scale_bar_mask.
  destruct (String.eqb_spec (effective_color settings color_arg) "white")
    as [Hw | Hw].
  - simpl bind. split; [| tauto].
    intros H. now apply after_mask_not_color in H.
  - destruct (String.eqb_spec (effective_color settings color_arg) "black")
      as [Hb | Hb].
    + simpl bind. split; [| tauto].
      intros H. now apply after_mask_not_color in H.
    + simpl. tauto.
Qed.

Lemma analyze_image_path_read {lib : Skimage} (settings : AnalyzerSettings)
    (image_path : string) (known_nm : R) (t : Thresholds)
    (color_arg : option string) (image : ndarray) :
  io_imread image_path = Returns image ->
  gray_conversion image = Returns tt ->
  analyze_image_path settings image_path known_nm t color_arg
  = analyze_image settings image known_nm t color_arg.
Proof.
  intros Hread Hgray. unfold analyze_image_path.
  rewrite Hread. simpl bind. rewrite Hgray. reflexivity.
Qed.

(** C8, as the code has it.  The picture is read and converted to grey
    levels before the colour is tested, so an exception of [io.imread] or of
    [rgb2gray] is what the call raises, whatever the colour.  When both
    return, the call raises the colour error exactly when the effective
    colour is neither "white" nor "black"; the effective colour is
    [str.lower] of the selector, or of [settings.sb_color] when the selector
    is [None] or empty, and on ASCII text [str.lower] only turns the letters
    A-Z into a-z. *)
Theorem invalid_color_iff {lib : Skimage} (settings : AnalyzerSettings)
    (image_path : string) (known_nm : R) (t : Thresholds)
    (color_arg : option string) :
  let chosen :=
    match color_arg with
    | Some s => if truthy s then s else sb_color settings
    | None => sb_color settings
    end in
  effective_color settings color_arg = str_lower chosen
  /\ (is_ascii chosen = true ->
      effective_color settings color_arg = lower chosen)
  /\ (forall e,
        io_imread image_path = Raises e ->
        analyze_image_path settings image_path known_nm t color_arg
        = Raises e)
  /\ (forall image e,
        io_imread image_path = Returns image ->
        gray_conversion image = Raises e ->
        analyze_image_path settings image_path known_nm t color_arg
        = Raises e)
  /\ (forall image,
        io_imread image_path = Returns image ->
        gray_conversion image = Returns tt ->
        (analyze_image_path settings image_path known_nm t color_arg
         = Raises (ValueError "Scale bar color must be 'white' or 'black'.")
         <-> (str_lower chosen <> "white"%string
              /\ str_lower chosen <> "black"%string))).
Proof.
  cbv zeta. split; [reflexivity |].
  split; [intros Hascii; unfold effective_color; now apply str_lower_ascii |].
  split; [| split].
  - intros e Hread. unfold analyze_image_path. now rewrite Hread.
  - intros image e Hread Hgray. unfold analyze_image_path.
    rewrite Hread. simpl bind. now rewrite Hgray.
  - intros image Hread Hgray.
    rewrite (analyze_image_path_read _ _ _ _ _ _ Hread Hgray).
    apply analyze_image_color_error.
Qed.

Lemma invalid_color_iff_witness :
  analyze_image_path (lib := test_lib) test_settings "grid3.tif" 50
    default_Thresholds (Some "Grey"%string)
  = Raises (ValueError "Scale bar color must be 'white' or 'black'.").
Proof.
  destruct (invalid_color_iff (lib := test_lib) test_settings "grid3.tif" 50
              default_Thresholds (Some "Grey"%string))
    as (_ & _ & _ & _ & Hcolor).
  apply (Hcolor test_picture eq_refl eq_refl).
  split; discriminate.
Defined.

(** C8 as stated fails: the selector "White" is neither "white" nor
    "black", yet the analysis of a readable picture returns a result. *)
Lemma color_selector_counterexample :
  "White"%string <> "white"%string
  /\ "White"%string <> "black"%string
  /\ io_imread (Skimage := test_lib) "grid3.tif" = Returns test_picture
  /\ analyze_image_path (lib := test_lib) test_settings "grid3.tif" 50
       default_Thresholds (Some "White"%string)
     = Returns (measure test_discs (50 / 100) default_Thresholds)
  /\ analyze_image_path (lib := test_lib) test_settings "grid3.tif" 50
       default_Thresholds (Some "White"%string)
     <> Raises (ValueError "Scale bar color must be 'white' or 'black'.").
Proof.
  rewrite (analyze_image_path_read (lib := test_lib) test_settings "grid3.tif"
             50 default_Thresholds (Some "White"%string) test_picture
             eq_refl eq_refl).
  rewrite (test_run 50 default_Thresholds "White" eq_refl).
  repeat split; discriminate.
Qed.

(** The selector [None] falls back on the settings. *)
Example color_selector_default {lib : Skimage} :
  effective_color default_AnalyzerSettings None = "white"%string
  /\ effective_color default_AnalyzerSettings (Some "BLACK"%string)
     = "black"%string
  /\ effective_color default_AnalyzerSettings (Some "grey"%string)
     = "grey"%string.
Proof.
  unfold effective_color. simpl.
  rewrite !str_lower_ascii by reflexivity. repeat split.
Qed.

(** ** Unit scaling *)

Lemma Rsum_map_scale {A : Type} (c : R) (f : A -> R) (xs : list A) :
  Rsum (map (fun x => c * f x) xs) = c * Rsum (map f xs).
Proof.
  induction xs as [| x xs IH]; simpl; [ring |]. rewrite IH. ring.
Qed.

Lemma np_mean_scale (k : R) (xs : list R) :
  np_mean (map (Rmult k) xs) = k * np_mean xs.
Proof.
  unfold np_mean. rewrite length_map.
  rewrite (Rsum_map_scale k (fun x => x)), map_id.
  unfold Rdiv. ring.
Qed.

Lemma np_var_scale (k : R) (xs : list R) :
  np_var 0 (map (Rmult k) xs) = (k * k) * np_var 0 xs.
Proof.
  rewrite !np_var_population, np_mean_scale, length_map, map_map.
  rewrite (map_ext _ (fun x => (k * k)
                               * ((x - np_mean xs) * (x - np_mean xs))))
    by (intros x; ring).
  rewrite Rsum_map_scale. unfold Rdiv. ring.
Qed.

Lemma np_std_scale (k : R) (xs : list R) :
  0 <= k -> np_std 0 (map (Rmult k) xs) = k * np_std 0 xs.
Proof.
  intros Hk. unfold np_std. rewrite np_var_scale.
  rewrite sqrt_mult_alt by nra. now rewrite sqrt_square.
Qed.

Lemma Rleb_scale (k x y : R) : 0 < k -> Rleb (k * x) (k * y) = Rleb x y.
Proof.
  intros Hk. destruct (Rleb x y) eqn:Hxy.
  - apply Rleb_true_iff in Hxy. apply Rleb_true_iff. nra.
  - apply Rleb_false_iff in Hxy. apply Rleb_false_iff. nra.
Qed.

Lemma accepts_scale (k npp : R) (t : Thresholds) (p : RegionProps) :
  0 < k -> accepts (k * npp) (scale_size_bounds k t) p = accepts npp t p.
Proof.
  intros Hk. unfold accepts, scale_size_bounds, Rgeb. simpl.
  replace (equivalent_diameter p * (k * npp))
    with (k * (equivalent_diameter p * npp)) by ring.
  now rewrite !Rleb_scale.
Qed.

Lemma calibrate_scale (k known_nm npp : R) (sb_props : list RegionProps) :
  calibrate sb_props known_nm = Returns npp ->
  calibrate sb_props (k * known_nm) = Returns (k * npp).
Proof.
  unfold calibrate. destruct sb_props as [| p l]; [discriminate |].
  destruct (sort_by_area_desc (p :: l)) as [| bar rest]; [discriminate |].
  destruct (bbox bar) as [[[minr minc] maxr] maxc].
  destruct (maxc - minc <=? 0)%Z; [discriminate |].
  intros H. injection H as <-. f_equal. unfold Rdiv. ring.
Qed.

Lemma measure_scale (k npp : R) (t t' : Thresholds) (props : list RegionProps) :
  0 <= k ->
  accepted props (k * npp) t' = accepted props npp t ->
  measure props (k * npp) t' = scale_result k (measure props npp t).
Proof.
  intros Hk Hsame. rewrite !measure_accepted, Hsame.
  destruct (accepted props npp t) as [| p l]; [reflexivity |].
  cbv zeta. unfold scale_result. cbn [count mean_nm std_nm values_nm circles].
  assert (Hvals : map (fun q => equivalent_diameter q * (k * npp)) (p :: l)
                  = map (Rmult k)
                      (map (fun q => equivalent_diameter q * npp) (p :: l))).
  { rewrite map_map. apply map_ext. intros q. ring. }
  rewrite Hvals, np_mean_scale, np_std_scale, !length_map by exact Hk.
  reflexivity.
Qed.

(** C1, as the code has it: doubling [known_nm] doubles the calibration
    factor.  The result is the old one with every value, the mean and the
    standard deviation doubled and the same count and circles whenever the
    acceptance mask over the segmented regions is the same at both
    calibrations; that is the case when [min_nm] and [max_nm] are doubled
    together with [known_nm]. *)
Theorem unit_scaling {lib : Skimage} (settings : AnalyzerSettings)
    (image : ndarray) (known_nm : R) (t : Thresholds)
    (color_arg : option string) (r : ImageResult) :
  analyze_image settings image known_nm t color_arg = Returns r ->
  analyze_image settings image (2 * known_nm) (scale_size_bounds 2 t) color_arg
    = Returns (scale_result 2 r)
  /\ (forall sb_bw npp roi_f,
        scale_bar_mask settings (to_gray image)
          (effective_color settings color_arg) = Returns sb_bw ->
        calibrate (scale_bar_components settings sb_bw) known_nm
          = Returns npp ->
        enhance settings (to_gray image) = Returns roi_f ->
        calibrate (scale_bar_components settings sb_bw) (2 * known_nm)
          = Returns (2 * npp)
        /\ (valid_mask (segment roi_f) (2 * npp) t
             = valid_mask (segment roi_f) npp t ->
            analyze_image settings image (2 * known_nm) t color_arg
            = Returns (scale_result 2 r))).
Proof.
  intros Hrun.
  destruct (analyze_image_returns _ _ _ _ _ _ Hrun)
    as (sb_bw & npp & roi_f & Hmask & Hcal & Henh & ->).
  pose proof (calibrate_scale 2 _ _ _ Hcal) as Hcal2. split.
  - rewrite (analyze_image_stages _ _ _ _ _ _ _ _ Hmask Hcal2 Henh).
    f_equal. apply measure_scale; [lra |].
    unfold accepted. apply filter_ext. intros p. apply accepts_scale. lra.
  - intros sb_bw' npp' roi_f' Hmask' Hcal' Henh'.
    rewrite Hmask in Hmask'. injection Hmask' as <-.
    rewrite Hcal in Hcal'. injection Hcal' as <-.
    rewrite Henh in Henh'. injection Henh' as <-.
    split; [exact Hcal2 |]. intros Hsame.
    rewrite (analyze_image_stages _ _ _ _ _ _ _ _ Hmask Hcal2 Henh).
    f_equal. apply measure_scale; [lra |].
    unfold accepted. rewrite <- !bool_index_filter, <- !valid_mask_map.
    now rewrite Hsame.
Qed.

Lemma unit_scaling_witness :
  analyze_image (lib := test_lib) test_settings test_picture (2 * 50)
    (scale_size_bounds 2 default_Thresholds) (Some "white"%string)
  = Returns (scale_result 2 (measure test_discs (50 / 100) default_Thresholds)).
Proof.
  apply (unit_scaling (lib := test_lib) test_settings test_picture 50
           default_Thresholds (Some "white"%string)).
  apply test_run. reflexivity.
Defined.

(** C1 as stated fails: with the thresholds held fixed, doubling [known_nm]
    from 50 to 100 takes the count from 2 to 1, and the values from
    [[8; 4]] to [[8]]. *)
Lemma unit_scaling_counterexample :
  exists r1 r2,
    analyze_image (lib := test_lib) test_settings test_picture 50
      default_Thresholds (Some "white"%string) = Returns r1
    /\ analyze_image (lib := test_lib) test_settings test_picture (2 * 50)
         default_Thresholds (Some "white"%string) = Returns r2
    /\ count r1 = 2%nat /\ count r2 = 1%nat
    /\ values_nm r1 = [8; 4]
    /\ values_nm r2 = [8]
    /\ count r2 <> count r1
    /\ values_nm r2 <> map (Rmult 2) (values_nm r1).
Proof.
  exists (measure test_discs (50 / 100) default_Thresholds),
         (measure test_discs (2 * 50 / 100) default_Thresholds).
  rewrite !test_run by reflexivity.
  rewrite test_measure_base, test_measure_doubled. simpl.
  repeat split; try discriminate; repeat f_equal; lra.
Qed.


(** * Further properties of the code *)

(** ** Failure modes of [analyze_image] *)

Lemma sort_by_area_desc_nonempty (p : RegionProps) (l : list RegionProps) :
  sort_by_area_desc (p :: l) <> [].
Proof.
  intros Hnil.
  pose proof (sort_by_area_desc_perm (p :: l)) as Hperm.
  rewrite Hnil in Hperm. now apply Permutation_nil in Hperm.
Qed.

(** Whether [calibrate] fails, and how, is decided by the components alone;
    when it succeeds the factor is [known_nm] over a positive pixel width. *)
Lemma calibrate_shape (sb_props : list RegionProps) :
  (forall known_nm,
      calibrate sb_props known_nm
      = Raises (ValueError "Scale bar not found. Adjust threshold or region."))
  \/ (forall known_nm,
         calibrate sb_props known_nm
         = Raises (ValueError "Invalid scale bar width."))
  \/ (exists w, (0 < w)%Z /\
        forall known_nm,
          calibrate sb_props known_nm = Returns (known_nm / IZR w)).
Proof.
  destruct sb_props as [| p l]; [now left |].
  unfold calibrate.
  destruct (sort_by_area_desc (p :: l)) as [| bar rest] eqn:Hsort.
  - now apply sort_by_area_desc_nonempty in Hsort.
  - destruct (bbox bar) as [[[minr minc] maxr] maxc].
    destruct (maxc - minc <=? 0)%Z eqn:Hw.
    + right. now left.
    + right. right. exists (maxc - minc)%Z.
      apply Z.leb_gt in Hw. now split.
Qed.

Lemma enhance_cases {lib : Skimage} (settings : AnalyzerSettings)
    (gray : gray_image) :
  ((Z.of_nat (length gray) - crop_bottom_px settings <= 1)%Z
   /\ enhance settings gray
      = Raises (ValueError "Crop bottom too large for this image."))
  \/ ((1 < Z.of_nat (length gray) - crop_bottom_px settings)%Z
      /\ exists roi_f, enhance settings gray = Returns roi_f).
Proof.
  unfold enhance.
  destruct (Z.of_nat (length gray) - crop_bottom_px settings <=? 1)%Z eqn:Hc.
  - left. apply Z.leb_le in Hc. now split.
  - right. apply Z.leb_gt in Hc. split; [exact Hc |]. eauto.
Qed.

(** X1: the calibration step (lines 77-86), which calls no library
    function, fails in two ways only: "Scale bar not found" exactly when
    the component list is empty, and "Invalid scale bar width" for some
    non-empty lists; taking element 0 of the sorted list never raises
    [IndexError]. *)
Theorem calibrate_failure_modes (sb_props : list RegionProps) (known_nm : R)
    (e : exn) :
  calibrate sb_props known_nm = Raises e ->
  (sb_props = []
   /\ e = ValueError "Scale bar not found. Adjust threshold or region.")
  \/ (sb_props <> [] /\ e = ValueError "Invalid scale bar width.").
Proof.
  destruct sb_props as [| p l].
  - intros H. injection H as <-. now left.
  - unfold calibrate.
    destruct (sort_by_area_desc (p :: l)) as [| bar rest] eqn:Hsort.
    + now apply sort_by_area_desc_nonempty in Hsort.
    + destruct (bbox bar) as [[[minr minc] maxr] maxc].
      destruct (maxc - minc <=? 0)%Z; [| discriminate].
      intros H. injection H as <-. right. split; [discriminate | reflexivity].
Qed.

Lemma calibrate_failure_modes_witness :
  exists e,
    calibrate [speck_component;
               {| area := 2000; bbox := (0, 5, 3, 5)%Z;
                  equivalent_diameter := 0; eccentricity := 0; solidity := 0;
                  centroid := (0, 0) |}] 100 = Raises e
    /\ e = ValueError "Invalid scale bar width.".
Proof.
  exists (ValueError "Invalid scale bar width."). split; [reflexivity |].
  destruct (calibrate_failure_modes
              [speck_component;
               {| area := 2000; bbox := (0, 5, 3, 5)%Z;
                  equivalent_diameter := 0; eccentricity := 0; solidity := 0;
                  centroid := (0, 0) |}] 100
              (ValueError "Invalid scale bar width.") eq_refl)
    as [[Hnil _] | [_ He]]; [discriminate Hnil | exact He].
Defined.

(** X2: a failure of [analyze_image] does not depend on [known_nm] or on the
    thresholds: the same picture, settings and colour fail with the same
    exception for every other calibration length and acceptance policy. *)
Theorem analyze_image_failure_independent {lib : Skimage}
    (settings : AnalyzerSettings) (image : ndarray) (known_nm known_nm' : R)
    (t t' : Thresholds) (color_arg : option string) (e : exn) :
  analyze_image settings image known_nm t color_arg = Raises e ->
  analyze_image settings image known_nm' t' color_arg = Raises e.
Proof.
  unfold analyze_image.
  destruct (scale_bar_mask settings (to_gray image)
              (effective_color settings color_arg)) as [sb_bw | e0];
    simpl bind; [| exact (fun H => H)].
  destruct (calibrate_shape (scale_bar_components settings sb_bw))
    as [Hc | [Hc | (w & _ & Hc)]]; rewrite !Hc; simpl bind;
    try exact (fun H => H).
  destruct (enhance settings (to_gray image)) as [roi_f | e1]; simpl.
  - discriminate.
  - exact (fun H => H).
Qed.

Lemma analyze_image_failure_independent_witness :
  analyze_image (lib := test_lib) test_settings test_picture 75
    (scale_size_bounds 3 default_Thresholds) (Some "Grey"%string)
  = Raises (ValueError "Scale bar color must be 'white' or 'black'.").
Proof.
  apply (analyze_image_failure_independent (lib := test_lib) test_settings
           test_picture 50 75 default_Thresholds
           (scale_size_bounds 3 default_Thresholds) (Some "Grey"%string)).
  reflexivity.
Defined.

(** X3: the crop error is raised exactly when the colour is valid, the
    calibration succeeds and at most one row would be left above the
    cropped strip; it is the last of the checks. *)
Theorem crop_error_iff {lib : Skimage} (settings : AnalyzerSettings)
    (image : ndarray) (known_nm : R) (t : Thresholds)
    (color_arg : option string) :
  analyze_image settings image known_nm t color_arg
    = Raises (ValueError "Crop bottom too large for this image.")
  <-> exists sb_bw npp,
        scale_bar_mask settings (to_gray image)
          (effective_color settings color_arg) = Returns sb_bw
        /\ calibrate (scale_bar_components settings sb_bw) known_nm
           = Returns npp
        /\ (Z.of_nat (length (to_gray image)) - crop_bottom_px settings <= 1)%Z.
Proof.
  unfold analyze_image. split.
  - destruct (scale_bar_mask settings (to_gray image)
                (effective_color settings color_arg)) as [sb_bw | e0] eqn:Hmask;
      simpl bind.
    + destruct (calibrate_shape (scale_bar_components settings sb_bw))
        as [Hc | [Hc | (w & _ & Hc)]]; rewrite Hc; simpl bind;
        try discriminate.
      destruct (enhance_cases settings (to_gray image))
        as [[Hle He] | [_ [roi_f He]]]; rewrite He; simpl; [| discriminate].
      intros _. exists sb_bw, (known_nm / IZR w). auto.
    + unfold scale_bar_mask in Hmask.
      destruct (String.eqb _ "white"); [discriminate |].
      destruct (String.eqb _ "black"); [discriminate |].
      injection Hmask as <-. discriminate.
  - intros (sb_bw & npp & Hmask & Hcal & Hle).
    rewrite Hmask. simpl bind. rewrite Hcal. simpl bind.
    destruct (enhance_cases settings (to_gray image))
      as [[_ He] | [Hgt _]]; [now rewrite He | lia].
Qed.

Lemma crop_error_iff_witness :
  analyze_image (lib := test_lib) default_AnalyzerSettings test_picture 50
    default_Thresholds None
  = Raises (ValueError "Crop bottom too large for this image.").
Proof.
  apply (proj2 (crop_error_iff (lib := test_lib) default_AnalyzerSettings
                  test_picture 50 default_Thresholds None)).
  exists [[true; true]], (50 / 100). split; [exact test_mask |].
  split; [exact (test_calibrate [[true; true]] 50 eq_refl) |].
  simpl. lia.
Defined.

(** ** Bounds on the measurements *)

Lemma accepted_values_in_bounds (props : list RegionProps) (npp : R)
    (t : Thresholds) :
  Forall (fun v => min_nm t <= v <= max_nm t)
    (map (fun p => equivalent_diameter p * npp) (accepted props npp t)).
Proof.
  apply Forall_map, Forall_forall. intros p Hin.
  apply filter_In in Hin. destruct Hin as [_ Hacc].
  apply accepts_true_iff in Hacc. tauto.
Qed.

(** X4: every value of [values_nm] in a returned result lies in
    [[min_nm, max_nm]]: the values are those the size test of line 120 let
    through, unchanged. *)
Theorem values_within_size_bounds {lib : Skimage}
    (settings : AnalyzerSettings) (image : ndarray) (known_nm : R)
    (t : Thresholds) (color_arg : option string) (r : ImageResult) :
  analyze_image settings image known_nm t color_arg = Returns r ->
  Forall (fun v => min_nm t <= v <= max_nm t) (values_nm r).
Proof.
  intros Hrun.
  destruct (analyze_image_returns _ _ _ _ _ _ Hrun)
    as (sb_bw & npp & roi_f & _ & _ & _ & ->).
  rewrite measure_values. apply accepted_values_in_bounds.
Qed.

Lemma values_within_size_bounds_witness :
  Forall (fun v => min_nm default_Thresholds <= v <= max_nm default_Thresholds)
    (values_nm (measure test_discs (50 / 100) default_Thresholds)).
Proof.
  apply (values_within_size_bounds (lib := test_lib) test_settings test_picture
           50 default_Thresholds (Some "white"%string)).
  apply test_run. reflexivity.
Defined.

(** X6: with [max_nm] below [min_nm] no region can pass, and a successful
    analysis returns the empty result; the inverted bounds are not an
    error. *)
Theorem inverted_size_bounds_empty {lib : Skimage}
    (settings : AnalyzerSettings) (image : ndarray) (known_nm : R)
    (t : Thresholds) (color_arg : option string) (r : ImageResult) :
  max_nm t < min_nm t ->
  analyze_image settings image known_nm t color_arg = Returns r ->
  r = empty_result.
Proof.
  intros Hinv Hrun.
  destruct (analyze_image_returns _ _ _ _ _ _ Hrun)
    as (sb_bw & npp & roi_f & _ & _ & _ & ->).
  pose proof (accepted_values_in_bounds (segment roi_f) npp t) as Hall.
  rewrite measure_accepted.
  destruct (accepted (segment roi_f) npp t) as [| p l]; [reflexivity |].
  inversion Hall as [| v vs Hv _]. lra.
Qed.

Lemma inverted_size_bounds_empty_witness :
  measure test_discs (50 / 100)
    {| min_nm := 9; max_nm := 3.5; ecc_max := 0.7; sol_min := 0.5 |}
  = empty_result.
Proof.
  apply (inverted_size_bounds_empty (lib := test_lib) test_settings
           test_picture 50
           {| min_nm := 9; max_nm := 3.5; ecc_max := 0.7; sol_min := 0.5 |}
           (Some "white"%string)).
  - simpl. lra.
  - apply test_run. reflexivity.
Defined.

(** X7: [known_nm] is never checked, and a calibration factor that is
    returned lies between 0 and [known_nm]: [0 <= nm_per_pix <= known_nm]
    for [known_nm >= 0] (the bar is at least one pixel wide) and
    [known_nm <= nm_per_pix <= 0] for [known_nm <= 0]. *)
Theorem calibrate_sign (sb_props : list RegionProps) (known_nm npp : R) :
  calibrate sb_props known_nm = Returns npp ->
  (0 <= known_nm -> 0 <= npp <= known_nm)
  /\ (known_nm <= 0 -> known_nm <= npp <= 0).
Proof.
  destruct (calibrate_shape sb_props) as [Hc | [Hc | (w & Hw & Hc)]];
    rewrite Hc; try discriminate.
  intros H. injection H as <-.
  assert (Hw1 : 1 <= IZR w) by (apply IZR_le; lia).
  assert (Hinv : 0 < / IZR w <= 1).
  { split; [apply Rinv_0_lt_compat; lra |].
    rewrite <- Rinv_1. apply Rinv_le_contravar; lra. }
  unfold Rdiv. split; intros Hk; split; nra.
Qed.

Lemma calibrate_sign_witness :
  0 <= 100 / 100 <= 100.
Proof.
  refine (proj1 (calibrate_sign
                   (scale_bar_components (lib := test_lib) test_settings
                      [[true; true]]) 100 (100 / 100)
                   (test_calibrate [[true; true]] 100 eq_refl)) _).
  lra.
Defined.

(** ** The cropped measurement region *)

(** X8: when the crop check passes, the region handed to the contrast
    enhancement is the picture without its last [crop_bottom_px] rows, the
    whole picture when [crop_bottom_px] is zero or negative; it has at least
    two rows when [crop_bottom_px] is not negative. *)
Theorem enhance_crop_rows {lib : Skimage} (settings : AnalyzerSettings)
    (gray roi_f : gray_image) :
  enhance settings gray = Returns roi_f ->
  let roi := firstn (length gray - Z.to_nat (crop_bottom_px settings)) gray in
  roi_f = gaussian
            (adjust_gamma
               (equalize_adapthist roi (adapthist_clip settings) 256)
               (gamma settings))
            (gauss_sigma settings)
  /\ length roi = (length gray - Z.to_nat (crop_bottom_px settings))%nat
  /\ ((0 <= crop_bottom_px settings)%Z -> (2 <= length roi)%nat).
Proof.
  unfold enhance.
  destruct (Z.of_nat (length gray) - crop_bottom_px settings <=? 1)%Z eqn:Hc;
    [discriminate |].
  apply Z.leb_gt in Hc. intros H. injection H as <-. cbv zeta.
  assert (Hroi : slice_to (Z.of_nat (length gray) - crop_bottom_px settings) gray
                 = firstn (length gray - Z.to_nat (crop_bottom_px settings)) gray).
  { unfold slice_to.
    replace (_ <? 0)%Z with false by (symmetry; apply Z.ltb_ge; lia).
    f_equal. lia. }
  rewrite Hroi. split; [reflexivity |].
  rewrite length_firstn. split; [lia |]. intros Hpos. lia.
Qed.

Lemma enhance_crop_rows_witness :
  length (firstn (length (to_gray (lib := test_lib) test_picture)
                  - Z.to_nat (crop_bottom_px test_settings))
            (to_gray (lib := test_lib) test_picture)) = 3%nat.
Proof.
  destruct (enhance_crop_rows (lib := test_lib) test_settings _ _ test_enhance)
    as (_ & Hlen & _).
  rewrite Hlen. reflexivity.
Defined.

(** ** Sessions in the store *)

Lemma lookup_app_old (h extra : store) (r : ref) (o : object) :
  lookup h r = Some o -> lookup (h ++ extra) r = Some o.
Proof.
  unfold lookup. intros Hr. rewrite nth_error_app1; [exact Hr |].
  apply nth_error_Some. congruence.
Qed.

Lemma lookup_app_new (h extra : store) (k : nat) :
  lookup (h ++ extra) (length h + k)%nat = nth_error extra k.
Proof.
  unfold lookup. rewrite nth_error_app2 by lia. f_equal. lia.
Qed.

Lemma add_measurements_result (h : store) (self values tot : ref)
    (thr : Thresholds) (old vs : list R) :
  lookup h self = Some (SessionObj thr tot) ->
  lookup h tot = Some (ListObj old) ->
  lookup h values = Some (ListObj vs) ->
  add_measurements h self values = Some (update h tot (ListObj (old ++ vs))).
Proof.
  intros Hself Htot Hvals. unfold add_measurements, list_extend.
  now rewrite Hself, Htot, Hvals.
Qed.

Lemma session_total_nm_update (h : store) (self tot : ref) (thr : Thresholds)
    (old new : list R) :
  lookup h self = Some (SessionObj thr tot) ->
  lookup h tot = Some (ListObj old) ->
  session_total_nm (update h tot (ListObj new)) self = Some new.
Proof.
  intros Hself Htot.
  assert (Hne : self <> tot) by (intros ->; congruence).
  unfold session_total_nm.
  rewrite lookup_update_other, Hself by exact Hne.
  now rewrite (lookup_update_same _ _ _ _ Htot).
Qed.

Lemma total_count_total_nm (h : store) (self : ref) :
  total_count h self = option_map (@length R) (session_total_nm h self).
Proof.
  unfold total_count, session_total_nm, list_len.
  destruct (lookup h self) as [[items | thr tot] |]; try reflexivity.
  destruct (lookup h tot) as [[items | thr' tot'] |]; reflexivity.
Qed.

Lemma SessionState_new_lookup (h : store) :
  lookup (fst (SessionState_new h)) (snd (SessionState_new h))
    = Some (SessionObj default_Thresholds (length h))
  /\ lookup (fst (SessionState_new h)) (length h) = Some (ListObj []).
Proof.
  unfold SessionState_new. simpl fst. simpl snd. split.
  - replace (S (length h)) with (length h + 1)%nat by lia.
    now rewrite lookup_app_new.
  - replace (length h) with (length h + 0)%nat at 2 by lia.
    now rewrite lookup_app_new.
Qed.

(** X9: [SessionState()] gives a session with no measurement and a count of
    0, with the default thresholds, and leaves every object that was already
    in the store as it was. *)
Theorem SessionState_new_empty (h : store) :
  let h' := fst (SessionState_new h) in
  let s := snd (SessionState_new h) in
  session_total_nm h' s = Some []
  /\ total_count h' s = Some 0%nat
  /\ (exists tot, lookup h' s = Some (SessionObj default_Thresholds tot)
                  /\ lookup h tot = None)
  /\ forall r o, lookup h r = Some o -> lookup h' r = Some o.
Proof.
  cbv zeta. destruct (SessionState_new_lookup h) as [Hs Hl].
  assert (Htot : session_total_nm (fst (SessionState_new h))
                   (snd (SessionState_new h)) = Some []).
  { unfold session_total_nm. now rewrite Hs, Hl. }
  split; [exact Htot |]. split; [now rewrite total_count_total_nm, Htot |].
  split.
  - exists (length h). split; [exact Hs |].
    unfold lookup. apply nth_error_None. lia.
  - intros r o Hr. unfold SessionState_new. simpl fst.
    now apply lookup_app_old.
Qed.

(** X10: two sessions never share their list: after measurements are added
    to the first of two new sessions, the first holds exactly those values
    and the second is still empty. *)
Theorem sessions_do_not_share (h : store) (values : ref) (vs : list R) :
  let h1 := fst (SessionState_new h) in
  let s1 := snd (SessionState_new h) in
  let h2 := fst (SessionState_new h1) in
  let s2 := snd (SessionState_new h1) in
  lookup h2 values = Some (ListObj vs) ->
  exists h3,
    add_measurements h2 s1 values = Some h3
    /\ session_total_nm h3 s1 = Some vs
    /\ session_total_nm h3 s2 = Some []
    /\ total_count h3 s2 = Some 0%nat.
Proof.
  cbv zeta. intros Hvals.
  destruct (SessionState_new_lookup h) as [Hs1 Hl1].
  destruct (SessionState_new_lookup (fst (SessionState_new h))) as [Hs2 Hl2].
  set (h1 := fst (SessionState_new h)) in *.
  set (h2 := fst (SessionState_new h1)) in *.
  assert (Hs1' : lookup h2 (snd (SessionState_new h))
                 = Some (SessionObj default_Thresholds (length h))).
  { unfold h2, SessionState_new at 1. simpl fst. now apply lookup_app_old. }
  assert (Hl1' : lookup h2 (length h) = Some (ListObj [])).
  { unfold h2, SessionState_new at 1. simpl fst. now apply lookup_app_old. }
  assert (Hlen : length h1 = (length h + 2)%nat).
  { unfold h1, SessionState_new. simpl fst. rewrite length_app. simpl. lia. }
  exists (update h2 (length h) (ListObj ([] ++ vs))).
  split; [now apply add_measurements_result with (thr := default_Thresholds) |].
  split; [now apply session_total_nm_update
                with (thr := default_Thresholds) (old := []) |].
  assert (Htot2 : session_total_nm (update h2 (length h) (ListObj ([] ++ vs)))
                    (snd (SessionState_new h1)) = Some []).
  { unfold session_total_nm.
    assert (Hne : snd (SessionState_new h1) <> length h)
      by (unfold SessionState_new; simpl snd; lia).
    rewrite lookup_update_other, Hs2 by exact Hne.
    rewrite lookup_update_other by lia. now rewrite Hl2. }
  split; [exact Htot2 |]. now rewrite total_count_total_nm, Htot2.
Qed.

Lemma sessions_do_not_share_witness :
  exists h3,
    add_measurements
      (fst (SessionState_new (fst (SessionState_new [ListObj [7; 4.5]]))))
      (snd (SessionState_new [ListObj [7; 4.5]])) 0%nat = Some h3
    /\ session_total_nm h3 (snd (SessionState_new [ListObj [7; 4.5]]))
       = Some [7; 4.5]
    /\ session_total_nm h3
         (snd (SessionState_new (fst (SessionState_new [ListObj [7; 4.5]]))))
       = Some []
    /\ total_count h3
         (snd (SessionState_new (fst (SessionState_new [ListObj [7; 4.5]]))))
       = Some 0%nat.
Proof.
  apply (sessions_do_not_share [ListObj [7; 4.5]] 0%nat [7; 4.5]).
  reflexivity.
Defined.

(** X11: measurements accumulate in the order of the calls: after adding
    [vs1] and then [vs2] (lists other than the session's own) the session
    holds the old values, then [vs1], then [vs2], and its count is the sum of
    the three lengths. *)
Theorem add_measurements_accumulates (h : store) (self v1 v2 tot : ref)
    (thr : Thresholds) (old vs1 vs2 : list R) :
  lookup h self = Some (SessionObj thr tot) ->
  lookup h tot = Some (ListObj old) ->
  lookup h v1 = Some (ListObj vs1) ->
  lookup h v2 = Some (ListObj vs2) ->
  v1 <> tot -> v2 <> tot ->
  exists h1 h2,
    add_measurements h self v1 = Some h1
    /\ add_measurements h1 self v2 = Some h2
    /\ session_total_nm h2 self = Some (old ++ vs1 ++ vs2)
    /\ total_count h2 self
       = Some (length old + length vs1 + length vs2)%nat
    /\ lookup h2 v1 = Some (ListObj vs1)
    /\ lookup h2 v2 = Some (ListObj vs2).
Proof.
  intros Hself Htot Hv1 Hv2 Hn1 Hn2.
  assert (Hne : self <> tot) by (intros ->; congruence).
  set (h1 := update h tot (ListObj (old ++ vs1))).
  assert (Hself1 : lookup h1 self = Some (SessionObj thr tot))
    by (unfold h1; now rewrite lookup_update_other).
  assert (Htot1 : lookup h1 tot = Some (ListObj (old ++ vs1)))
    by (unfold h1; eapply lookup_update_same; eassumption).
  assert (Hv21 : lookup h1 v2 = Some (ListObj vs2))
    by (unfold h1; now rewrite lookup_update_other).
  exists h1, (update h1 tot (ListObj ((old ++ vs1) ++ vs2))).
  assert (Htotal : session_total_nm
                     (update h1 tot (ListObj ((old ++ vs1) ++ vs2))) self
                   = Some (old ++ vs1 ++ vs2)).
  { rewrite (session_total_nm_update _ _ _ _ _ _ Hself1 Htot1).
    now rewrite app_assoc. }
  split; [now apply add_measurements_result with (thr := thr) |].
  split; [now apply add_measurements_result with (thr := thr) |].
  split; [exact Htotal |].
  split; [rewrite total_count_total_nm, Htotal; simpl;
          now rewrite !length_app, Nat.add_assoc |].
  split.
  - rewrite lookup_update_other by exact Hn1. unfold h1.
    now rewrite lookup_update_other.
  - now rewrite lookup_update_other.
Qed.

Lemma add_measurements_accumulates_witness :
  exists h1 h2,
    add_measurements test_store 0%nat 2%nat = Some h1
    /\ add_measurements h1 0%nat 2%nat = Some h2
    /\ session_total_nm h2 0%nat = Some ([5; 6] ++ [7; 4.5] ++ [7; 4.5])
    /\ total_count h2 0%nat = Some 6%nat
    /\ lookup h2 2%nat = Some (ListObj [7; 4.5])
    /\ lookup h2 2%nat = Some (ListObj [7; 4.5]).
Proof.
  apply (add_measurements_accumulates test_store 0%nat 2%nat 2%nat 1%nat
           default_Thresholds [5; 6] [7; 4.5] [7; 4.5]);
    try reflexivity; discriminate.
Defined.

(** ** The exported file *)

Lemma string_append_nil_r (s : string) : (s ++ "")%string = s.
Proof. induction s as [| c s IH]; simpl; [reflexivity | now rewrite IH]. Qed.

Lemma string_append_assoc (s1 s2 s3 : string) :
  ((s1 ++ s2) ++ s3)%string = (s1 ++ (s2 ++ s3))%string.
Proof. induction s1 as [| c s1 IH]; simpl; [reflexivity | now rewrite IH]. Qed.

Lemma string_concat_cons (x : string) (l : list string) :
  String.concat "" (x :: l) = (x ++ String.concat "" l)%string.
Proof.
  destruct l as [| y l]; [| reflexivity].
  simpl String.concat. now rewrite string_append_nil_r.
Qed.

Lemma written_text {A : Type} (fmt : A -> string) (values : list A)
    (written : string) :
  fold_left (fun w v => (w ++ (fmt v ++ io_utils.newline))%string) values written
  = (written
     ++ String.concat "" (map (fun v => (fmt v ++ io_utils.newline)%string) values))%string.
Proof.
  revert written. induction values as [| v values IH]; intros written.
  - simpl. now rewrite string_append_nil_r.
  - simpl fold_left. rewrite IH, string_append_assoc. f_equal.
    simpl map. now rewrite string_concat_cons.
Qed.

Lemma lines_from_line (s cur rest : string) :
  io_utils.has_newline s = false ->
  io_utils.lines_from cur (s ++ (io_utils.newline ++ rest))
  = (cur ++ s)%string :: io_utils.lines_from "" rest.
Proof.
  revert cur. induction s as [| c s IH]; intros cur Hs.
  - simpl. now rewrite string_append_nil_r.
  - simpl in Hs. apply orb_false_iff in Hs. destruct Hs as [Hc Hs].
    simpl. rewrite Hc, IH by exact Hs.
    now rewrite string_append_assoc.
Qed.

Lemma lines_of_written {A : Type} (fmt : A -> string) (values : list A) :
  Forall (fun v => io_utils.has_newline (fmt v) = false) values ->
  io_utils.lines
    (String.concat "" (map (fun v => (fmt v ++ io_utils.newline)%string) values))
  = map fmt values.
Proof.
  unfold io_utils.lines. induction 1 as [| v values Hv _ IH]; [reflexivity |].
  simpl map. 
  rewrite string_concat_cons, string_append_assoc.
  rewrite lines_from_line by exact Hv. now rewrite IH.
Qed.

(** X12: [save_csv] on a path that can be opened replaces the content of
    that file by the texts of the values, each followed by a newline, in
    order, whatever the file held before; it returns the path and the number
    of values and leaves every other file alone.  On a path that cannot be
    opened nothing is returned. *)
Theorem save_csv_writes {A : Type} (fmt : A -> string)
    (fs : io_utils.filesystem) (values : list A) (p : string) :
  (io_utils.writable fs p = false -> io_utils.save_csv fmt fs values p = None)
  /\ (io_utils.writable fs p = true ->
      exists fs',
        io_utils.save_csv fmt fs values p
        = Some (fs', {| io_utils.path := p;
                        io_utils.count := length values |})
        /\ io_utils.contents fs' p
           = Some (String.concat ""
                     (map (fun v => fmt v ++ io_utils.newline)%string values))
        /\ (forall q, q <> p ->
              io_utils.contents fs' q = io_utils.contents fs q)
        /\ (forall q, io_utils.writable fs' q = io_utils.writable fs q)).
Proof.
  unfold io_utils.save_csv. split; intros Hw; rewrite Hw; [reflexivity |].
  eexists. split; [reflexivity |]. simpl. split; [| split].
  - rewrite String.eqb_refl, written_text. reflexivity.
  - intros q Hq. apply String.eqb_neq in Hq. now rewrite Hq.
  - reflexivity.
Qed.

Lemma save_csv_writes_witness :
  exists fs',
    io_utils.save_csv
      (fun n => DecimalString.NilEmpty.string_of_uint (Nat.to_uint n))
      {| io_utils.contents := fun _ => Some "old"%string;
         io_utils.writable := fun _ => true |}
      [12; 7]%nat "out.csv"
    = Some (fs', {| io_utils.path := "out.csv"; io_utils.count := 2 |})
    /\ io_utils.contents fs' "out.csv"
       = Some (String.concat ""
                 (map (fun n =>
                         DecimalString.NilEmpty.string_of_uint (Nat.to_uint n)
                         ++ io_utils.newline)%string [12; 7]%nat))
    /\ (forall q, q <> "out.csv"%string ->
          io_utils.contents fs' q = Some "old"%string)
    /\ (forall q, io_utils.writable fs' q = true).
Proof.
  apply (proj2 (save_csv_writes
                  (fun n => DecimalString.NilEmpty.string_of_uint (Nat.to_uint n))
                  {| io_utils.contents := fun _ => Some "old"%string;
                     io_utils.writable := fun _ => true |}
                  [12; 7]%nat "out.csv")).
  reflexivity.
Defined.

(** X13: when no value's text contains a newline, the saved file has one
    line per value, the i-th line being the text of the i-th value, so the
    number of lines is the returned count; reading the lines back with any
    parser that inverts the formatting gives the original values in
    order. *)
Theorem save_csv_round_trip {A : Type} (fmt : A -> string)
    (fs fs' : io_utils.filesystem) (values : list A) (p : string)
    (res : io_utils.CsvSaveResult) :
  io_utils.save_csv fmt fs values p = Some (fs', res) ->
  Forall (fun v => io_utils.has_newline (fmt v) = false) values ->
  exists text,
    io_utils.contents fs' p = Some text
    /\ io_utils.lines text = map fmt values
    /\ length (io_utils.lines text) = io_utils.count res
    /\ forall parse : string -> option A,
         (forall v, In v values -> parse (fmt v) = Some v) ->
         map parse (io_utils.lines text) = map Some values.
Proof.
  unfold io_utils.save_csv. destruct (io_utils.writable fs p); [| discriminate].
  intros H Hnl. injection H as <- <-.
  exists (String.concat ""
            (map (fun v => fmt v ++ io_utils.newline)%string values)).
  simpl. rewrite String.eqb_refl, written_text.
  rewrite (lines_of_written fmt values Hnl).
  split; [reflexivity |]. split; [reflexivity |].
  split; [apply length_map |].
  intros parse Hparse. rewrite map_map. apply map_ext_in. exact Hparse.
Qed.

Lemma save_csv_round_trip_witness :
  exists text,
    io_utils.contents
      (io_utils.write_file
         {| io_utils.contents := fun _ => None;
            io_utils.writable := fun _ => true |}
         "out.csv"
         (fold_left
            (fun w n =>
               (w ++ (DecimalString.NilEmpty.string_of_uint (Nat.to_uint n)
                      ++ io_utils.newline))%string)
            [12; 7]%nat ""%string))
      "out.csv" = Some text
    /\ io_utils.lines text = ["12"; "7"]%string
    /\ length (io_utils.lines text) = 2%nat
    /\ forall parse : string -> option nat,
         (forall v, In v [12; 7]%nat ->
            parse (DecimalString.NilEmpty.string_of_uint (Nat.to_uint v))
            = Some v) ->
         map parse (io_utils.lines text) = map Some [12; 7]%nat.
Proof.
  apply (save_csv_round_trip
           (fun n => DecimalString.NilEmpty.string_of_uint (Nat.to_uint n))
           {| io_utils.contents := fun _ => None;
              io_utils.writable := fun _ => true |}
           _ [12; 7]%nat "out.csv"
           {| io_utils.path := "out.csv"; io_utils.count := 2 |}).
  - reflexivity.
  - repeat constructor.
Defined.

(** ** The histogram range and the session statistics *)

(** X14: [_get_hist_params] returns either no bound at all or both bounds;
    both are returned only when the range box is checked and the minimum is
    strictly below the maximum.  A checked range with [max <= min] is
    dropped. *)
Theorem get_hist_params_range (w : main_window.HistWidgets) :
  let '(bins, lo, hi) := main_window._get_hist_params w in
  bins = main_window.spinHistBins w
  /\ ((lo = None /\ hi = None
       /\ (main_window.checkHistRange w = false
           \/ main_window.spinHistMax w <= main_window.spinHistMin w))
      \/ (lo = Some (main_window.spinHistMin w)
          /\ hi = Some (main_window.spinHistMax w)
          /\ main_window.checkHistRange w = true
          /\ main_window.spinHistMin w < main_window.spinHistMax w)).
Proof.
  unfold main_window._get_hist_params.
  destruct (main_window.checkHistRange w).
  - destruct (Rleb (main_window.spinHistMax w) (main_window.spinHistMin w))
      eqn:Hcmp.
    + apply Rleb_true_iff in Hcmp. split; [reflexivity |]. left. auto.
    + apply Rleb_false_iff in Hcmp. split; [reflexivity |]. right. auto.
  - split; [reflexivity |]. left. auto.
Qed.

(** X15: without both bounds [_filter_values_by_range] returns the list
    itself; with both it returns the list filtered by the closed range: the
    values inside [[min, max]], each as often as it occurs and in the order
    of the list.  Filtering the output again changes nothing. *)
Theorem filter_values_by_range_spec (values : list R) :
  (forall lo, main_window._filter_values_by_range values lo None = values)
  /\ (forall hi, main_window._filter_values_by_range values None hi = values)
  /\ forall lo hi,
       let kept :=
         main_window._filter_values_by_range values (Some lo) (Some hi) in
       (forall in_range : R -> bool,
           (forall v, in_range v = true <-> lo <= v <= hi) ->
           kept = filter in_range values)
       /\ Forall (fun v => lo <= v <= hi) kept
       /\ (forall v, In v kept <-> In v values /\ lo <= v <= hi)
       /\ main_window._filter_values_by_range kept (Some lo) (Some hi) = kept
       /\ (length kept <= length values)%nat.
Proof.
  split; [intros [lo |]; reflexivity |]. split; [reflexivity |].
  intros lo hi. cbv zeta. unfold main_window._filter_values_by_range.
  assert (Hin : forall v,
             In v (filter (fun v => Rleb lo v && Rleb v hi) values)
             <-> In v values /\ lo <= v <= hi).
  { intros v. rewrite filter_In, andb_true_iff, !Rleb_true_iff. tauto. }
  split.
  { intros in_range Hrange. apply filter_ext. intros v.
    destruct (in_range v) eqn:Hv.
    - apply Hrange in Hv. apply andb_true_iff.
      rewrite !Rleb_true_iff. exact Hv.
    - destruct (Rleb lo v && Rleb v hi) eqn:Hb; [| reflexivity].
      apply andb_true_iff in Hb. rewrite !Rleb_true_iff in Hb.
      apply Hrange in Hb. congruence. }
  split; [apply Forall_forall; intros v Hv; now apply Hin in Hv |].
  split; [exact Hin |]. split.
  - apply forallb_filter_id. apply forallb_forall. intros v Hv.
    apply filter_In in Hv. tauto.
  - apply filter_length_le.
Qed.

Lemma filter_values_by_range_spec_witness :
  main_window._filter_values_by_range [5; 12; 5; 7] (Some 5) (Some 10)
  = filter (fun v => Rleb 5 v && Rleb v 10) [5; 12; 5; 7].
Proof.
  destruct (filter_values_by_range_spec [5; 12; 5; 7]) as (_ & _ & Hrange).
  destruct (Hrange 5 10) as (Hfilter & _).
  apply Hfilter. intros v. rewrite andb_true_iff, !Rleb_true_iff. tauto.
Defined.

(** The range [[5, 10]] on [[5; 12; 5; 7]] keeps both occurrences of 5. *)
Example filter_values_by_range_keeps_duplicates :
  main_window._filter_values_by_range [5; 12; 5; 7] (Some 5) (Some 10)
  = [5; 5; 7].
Proof.
  unfold main_window._filter_values_by_range. simpl. Rdecide. reflexivity.
Qed.

(** ** Accepting, skipping and analysing in the window *)

Lemma on_accept_pending (g : main_window.Gui) (r : ImageResult)
    (thr : Thresholds) (tot : ref) (old : list R) :
  lookup (main_window.heap g) (main_window.session g)
    = Some (SessionObj thr tot) ->
  lookup (main_window.heap g) tot = Some (ListObj old) ->
  main_window._pending_result g = Some r ->
  main_window.on_accept g
  = Some {| main_window.heap :=
              update (main_window.heap g ++ [ListObj (values_nm r)]) tot
                (ListObj (old ++ values_nm r));
            main_window.session := main_window.session g;
            main_window._pending_result := None;
            main_window._pending_path := None |}.
Proof.
  intros Hself Htot Hpend. unfold main_window.on_accept. rewrite Hpend.
  rewrite (add_measurements_result _ _ _ tot thr old (values_nm r)).
  - reflexivity.
  - now apply lookup_app_old.
  - now apply lookup_app_old.
  - replace (length (main_window.heap g))
      with (length (main_window.heap g) + 0)%nat by lia.
    now rewrite lookup_app_new.
Qed.

(** X17: accepting a pending result appends its values to the session, in
    order, and clears the pending result, so that accepting again adds
    nothing: a result cannot be counted twice. *)
Theorem on_accept_once (g : main_window.Gui) (r : ImageResult)
    (thr : Thresholds) (tot : ref) (old : list R) :
  lookup (main_window.heap g) (main_window.session g)
    = Some (SessionObj thr tot) ->
  lookup (main_window.heap g) tot = Some (ListObj old) ->
  main_window._pending_result g = Some r ->
  exists g',
    main_window.on_accept g = Some g'
    /\ main_window.session g' = main_window.session g
    /\ session_total_nm (main_window.heap g') (main_window.session g')
       = Some (old ++ values_nm r)
    /\ total_count (main_window.heap g') (main_window.session g')
       = Some (length old + length (values_nm r))%nat
    /\ main_window._pending_result g' = None
    /\ main_window._pending_path g' = None
    /\ main_window.on_accept g' = Some g'.
Proof.
  intros Hself Htot Hpend. eexists.
  split; [exact (on_accept_pending g r thr tot old Hself Htot Hpend) |].
  simpl.
  assert (Htotal :
    session_total_nm
      (update (main_window.heap g ++ [ListObj (values_nm r)]) tot
         (ListObj (old ++ values_nm r))) (main_window.session g)
    = Some (old ++ values_nm r)).
  { apply session_total_nm_update with (thr := thr) (old := old);
      now apply lookup_app_old. }
  split; [reflexivity |]. split; [exact Htotal |].
  split; [rewrite total_count_total_nm, Htotal; simpl;
          now rewrite length_app |].
  repeat split.
Qed.

Lemma on_accept_once_witness :
  exists g',
    main_window.on_accept
      {| main_window.heap := test_store; main_window.session := 0%nat;
         main_window._pending_result :=
           Some (measure test_discs (50 / 100) default_Thresholds);
         main_window._pending_path := Some "a.tif"%string |} = Some g'
    /\ main_window.session g' = 0%nat
    /\ session_total_nm (main_window.heap g') (main_window.session g')
       = Some ([5; 6]
               ++ values_nm (measure test_discs (50 / 100) default_Thresholds))
    /\ total_count (main_window.heap g') (main_window.session g')
       = Some (2 + length
                     (values_nm
                        (measure test_discs (50 / 100) default_Thresholds)))%nat
    /\ main_window._pending_result g' = None
    /\ main_window._pending_path g' = None
    /\ main_window.on_accept g' = Some g'.
Proof.
  apply (on_accept_once
           {| main_window.heap := test_store; main_window.session := 0%nat;
              main_window._pending_result :=
                Some (measure test_discs (50 / 100) default_Thresholds);
              main_window._pending_path := Some "a.tif"%string |}
           (measure test_discs (50 / 100) default_Thresholds)
           default_Thresholds 1%nat [5; 6]); reflexivity.
Defined.

(** X18: skipping never touches the store or the session and leaves no
    pending result, so accepting after a skip adds nothing. *)
Theorem on_skip_discards (g : main_window.Gui) :
  main_window.heap (main_window.on_skip g) = main_window.heap g
  /\ main_window.session (main_window.on_skip g) = main_window.session g
  /\ main_window._pending_result (main_window.on_skip g) = None
  /\ main_window.on_accept (main_window.on_skip g)
     = Some (main_window.on_skip g).
Proof.
  unfold main_window.on_skip, main_window.on_accept.
  destruct (main_window._pending_result g) as [r |] eqn:Hpend; simpl.
  - repeat split.
  - rewrite Hpend. repeat split.
Qed.

(** X19: the window can never trigger the colour error: the colour it
    passes comes from the radio button and is "white" or "black". *)
Theorem gui_color_always_valid {lib : Skimage} (image : ndarray) (value : R)
    (t : Thresholds) (radioWhite : bool) :
  analyze_image (Analyzer_init None) image value t
    (Some (main_window._get_scale_bar_color radioWhite))
  <> Raises (ValueError "Scale bar color must be 'white' or 'black'.").
Proof.
  intros Hraise. apply analyze_image_color_error in Hraise.
  destruct Hraise as [Hwhite Hblack]. unfold effective_color in Hwhite, Hblack.
  destruct radioWhite; simpl in Hwhite, Hblack;
    rewrite str_lower_ascii in Hwhite, Hblack by reflexivity.
  - now apply Hwhite.
  - now apply Hblack.
Qed.

Section HandlerFacts.

Context {lib : Skimage}.
Variable imread : string -> option ndarray.


End HandlerFacts.


(** ** Exporting the session *)

Lemma get_hist_params_range_aux (w : main_window.HistWidgets) :
  (snd (fst (main_window._get_hist_params w)) = None
   /\ snd (main_window._get_hist_params w) = None)
  \/ exists a b,
       snd (fst (main_window._get_hist_params w)) = Some a
       /\ snd (main_window._get_hist_params w) = Some b.
Proof.
  unfold main_window._get_hist_params.
  destruct (main_window.checkHistRange w); [| now left].
  destruct (Rleb _ _); [now left |]. right. simpl. eauto.
Qed.

(** X21: [on_export] writes a file only through [save_csv], on a non-empty
    path and with at least one value: the values saved are the session's
    measurements restricted to the histogram range when one is in force (all
    of them otherwise), in session order, and the reported count is between
    1 and the session count.  In every other outcome the files are
    untouched. *)
Theorem on_export_saves (fmt : R -> string) (g : main_window.Gui)
    (w : main_window.HistWidgets) (fs fs' : io_utils.filesystem)
    (dialog_path : string) (ev : main_window.export_event) :
  main_window.on_export fmt g w fs dialog_path = Some (fs', ev) ->
  match ev with
  | main_window.SavedCsv filtered res =>
      exists total,
        session_total_nm (main_window.heap g) (main_window.session g)
          = Some total
        /\ let lo := snd (fst (main_window._get_hist_params w)) in
           let hi := snd (main_window._get_hist_params w) in
           let exported := main_window._filter_values_by_range total lo hi in
           io_utils.save_csv fmt fs exported dialog_path = Some (fs', res)
           /\ truthy dialog_path = true
           /\ io_utils.path res = dialog_path
           /\ io_utils.count res = length exported
           /\ (1 <= io_utils.count res <= length total)%nat
           /\ (filtered = false -> exported = total)
  | _ => fs' = fs
  end.
Proof.
  unfold main_window.on_export.
  rewrite total_count_total_nm.
  destruct (session_total_nm (main_window.heap g) (main_window.session g))
    as [total |]; simpl option_map; cbv beta iota; [| discriminate].
  destruct (length total =? 0)%nat; [intros H; now injection H as <- <- |].
  pose proof (get_hist_params_range_aux w) as Hparams.
  destruct (main_window._get_hist_params w) as [[bins lo] hi].
  assert (Hflt : forall exported filtered,
    match exported with
    | [] => Some (fs, main_window.NoDataInRange)
    | _ :: _ =>
        if negb (truthy dialog_path) then Some (fs, main_window.SaveCanceled)
        else
          match io_utils.save_csv fmt fs exported dialog_path with
          | Some (fs'0, result) =>
              Some (fs'0, main_window.SavedCsv filtered result)
          | None => None
          end
    end = Some (fs', ev) ->
    (length exported <= length total)%nat ->
    match ev with
    | main_window.SavedCsv f res =>
        f = filtered
        /\ io_utils.save_csv fmt fs exported dialog_path = Some (fs', res)
        /\ truthy dialog_path = true
        /\ io_utils.path res = dialog_path
        /\ io_utils.count res = length exported
        /\ (1 <= io_utils.count res <= length total)%nat
    | _ => fs' = fs
    end).
  { intros exported filtered Hrun Hlen.
    destruct exported as [| v exported];
      [injection Hrun as <- <-; reflexivity |].
    destruct (truthy dialog_path) eqn:Hp; simpl negb in Hrun; cbv iota in Hrun;
      [| injection Hrun as <- <-; reflexivity].
    destruct (io_utils.save_csv fmt fs (v :: exported) dialog_path)
      as [[fs0 res] |] eqn:Hsave; [| discriminate].
    injection Hrun as <- <-.
    split; [reflexivity |]. split; [reflexivity |]. split; [reflexivity |].
    unfold io_utils.save_csv in Hsave.
    destruct (io_utils.writable fs dialog_path); [| discriminate].
    injection Hsave as _ <-. simpl in *. repeat split; lia. }
  cbn [fst snd] in Hparams |- *.
  destruct Hparams as [(-> & ->) | (a & b & -> & ->)].
  - intros Hrun. specialize (Hflt total false Hrun (le_n _)).
    destruct ev; try exact Hflt.
    destruct Hflt as (-> & Hsave & Hp & Hpath & Hcount & Hrange).
    exists total. cbv zeta. split; [reflexivity |].
    split; [exact Hsave |]. split; [exact Hp |]. split; [exact Hpath |].
    split; [exact Hcount |]. split; [exact Hrange |]. reflexivity.
  - intros Hrun.
    specialize (Hflt (main_window._filter_values_by_range total (Some a) (Some b))
                  true Hrun (filter_length_le _ _)).
    destruct ev; try exact Hflt.
    destruct Hflt as (-> & Hsave & Hp & Hpath & Hcount & Hrange).
    exists total. cbv zeta. split; [reflexivity |].
    split; [exact Hsave |]. split; [exact Hp |]. split; [exact Hpath |].
    split; [exact Hcount |]. split; [exact Hrange |]. discriminate.
Qed.

Lemma on_export_saves_witness :
  exists total,
    session_total_nm test_store 0%nat = Some total
    /\ io_utils.save_csv (fun _ : R => "x"%string)
         {| io_utils.contents := fun _ => None;
            io_utils.writable := fun _ => true |}
         total "out.csv"
       = Some (io_utils.write_file
                 {| io_utils.contents := fun _ => None;
                    io_utils.writable := fun _ => true |}
                 "out.csv"
                 (String "x" (String io_utils.newline_char
                    (String "x" (String io_utils.newline_char "")))),
               {| io_utils.path := "out.csv"; io_utils.count := 2 |})
    /\ (1 <= 2 <= length total)%nat.
Proof.
  destruct (on_export_saves (fun _ : R => "x"%string)
              {| main_window.heap := test_store; main_window.session := 0%nat;
                 main_window._pending_result := None;
                 main_window._pending_path := None |}
              {| main_window.spinHistBins := 20; main_window.spinHistMin := 0;
                 main_window.spinHistMax := 10;
                 main_window.checkHistRange := false |}
              {| io_utils.contents := fun _ => None;
                 io_utils.writable := fun _ => true |}
              _ "out.csv"
              (main_window.SavedCsv false
                 {| io_utils.path := "out.csv"; io_utils.count := 2 |})
              eq_refl)
    as (total & Htotal & Hsave & _ & _ & _ & Hrange & _).
  exists total. split; [exact Htotal |]. split; [exact Hsave |]. exact Hrange.
Defined.

Lemma SessionState_new_empty_witness :
  lookup (fst (SessionState_new test_store)) 1%nat = Some (ListObj [5; 6]).
Proof.
  apply (proj2 (proj2 (proj2 (SessionState_new_empty test_store)))).
  reflexivity.
Defined.
